(** * merge_datasets.py: a shallow embedding and its verification

    The development follows [src/merge_datasets.py]: the Python builtins the
    script relies on ([str.split], [str.strip], [int], [str],
    [os.path.splitext], ...), the taxonomy merge, the remap table, the two
    label-remapping loops (planning and apply), the destination-name resolver,
    a filesystem model, and [main] itself as a state-and-exception monad over
    that filesystem.

    Text is modelled as [string] (a sequence of 8-bit characters); the model
    covers ASCII text, which is what label files and class names hold. *)

From stdpp Require Import base gmap sets list strings pretty.
From Stdlib Require Import ZArith Lia Ascii.

#[local] Set Warnings "-clear-no-such-hyp".

Local Open Scope Z_scope.

(** ** Python builtins on text *)

Module Py.

(** [str.isspace] on one ASCII character: TAB..CR, FS..US and the blank. *)
Definition isspace (c : ascii) : bool :=
  let n := nat_of_ascii c in
  (Nat.leb 9 n && Nat.leb n 13) || (Nat.leb 28 n && Nat.leb n 32).

Definition is_empty (s : string) : bool :=
  match s with EmptyString => true | String _ _ => false end.

Definition starts_token (s : string) : bool :=
  match s with EmptyString => false | String c _ => negb (isspace c) end.

(** [s.split()]: maximal runs of non-space characters. *)
Fixpoint split (s : string) : list string :=
  match s with
  | EmptyString => []
  | String c s' =>
      if isspace c then split s'
      else if starts_token s' then
        match split s' with
        | t :: ts => String c t :: ts
        | [] => [String c EmptyString]
        end
      else String c EmptyString :: split s'
  end.

Fixpoint lstrip_by (p : ascii → bool) (s : string) : string :=
  match s with
  | EmptyString => EmptyString
  | String c s' => if p c then lstrip_by p s' else s
  end.

Fixpoint rstrip_by (p : ascii → bool) (s : string) : string :=
  match s with
  | EmptyString => EmptyString
  | String c s' =>
      let r := rstrip_by p s' in
      if p c && is_empty r then EmptyString else String c r
  end.

(** [s.strip(chars)], [chars] given as a predicate *)
Definition strip_by (p : ascii → bool) (s : string) : string :=
  rstrip_by p (lstrip_by p s).

(** [s.strip()] *)
Definition strip (s : string) : string := strip_by isspace s.

(** [sep.join(l)] *)
Fixpoint join (sep : string) (l : list string) : string :=
  match l with
  | [] => EmptyString
  | [x] => x
  | x :: l' => x +:+ sep +:+ join sep l'
  end.

Definition digit (c : ascii) : option Z :=
  let n := nat_of_ascii c in
  if Nat.leb 48 n && Nat.leb n 57 then Some (Z.of_nat n - 48) else None.

(** The digits of an integer literal: at least one digit, single underscores
    allowed between digits.  [prev] tells whether the previous character was a
    digit. *)
Fixpoint digits (acc : Z) (prev : bool) (s : string) : option Z :=
  match s with
  | EmptyString => if prev then Some acc else None
  | String c s' =>
      match digit c with
      | Some d => digits (10 * acc + d) true s'
      | None =>
          if Ascii.eqb c "_"%char && prev then digits acc false s' else None
      end
  end.

(** [int(s)] in base 10 on ASCII text: surrounding blanks, an optional sign,
    digits with single underscores between them.  [None] stands for
    [ValueError].  (The interpreter's limit on the number of digits of a
    literal is not modelled.) *)
Definition int (s : string) : option Z :=
  match strip s with
  | String "-"%char r => Z.opp <$> digits 0 false r
  | String "+"%char r => digits 0 false r
  | r => digits 0 false r
  end.

(** [str(n)] for an integer. *)
Definition str (n : Z) : string := pretty n.

(** [s.lower()] on ASCII letters. *)
Definition lower_char (c : ascii) : ascii :=
  let n := nat_of_ascii c in
  if Nat.leb 65 n && Nat.leb n 90 then ascii_of_nat (n + 32) else c.

Fixpoint lower (s : string) : string :=
  match s with
  | EmptyString => EmptyString
  | String c s' => String (lower_char c) (lower s')
  end.

Fixpoint drop (n : nat) (s : string) : string :=
  match n, s with
  | O, _ => s
  | S n', String _ s' => drop n' s'
  | S _, EmptyString => EmptyString
  end.

Fixpoint take (n : nat) (s : string) : string :=
  match n, s with
  | O, _ => EmptyString
  | S n', String c s' => String c (take n' s')
  | S _, EmptyString => EmptyString
  end.

(** [s.endswith(suf)] *)
Definition endswith (s suf : string) : bool :=
  Nat.leb (String.length suf) (String.length s)
  && String.eqb (drop (String.length s - String.length suf) s) suf.

(** [s.startswith(pre)] *)
Definition startswith (s pre : string) : bool := String.prefix pre s.

(** [s.rfind('.')]; [None] stands for -1. *)
Fixpoint rfind_dot (s : string) : option nat :=
  match s with
  | EmptyString => None
  | String c s' =>
      match rfind_dot s' with
      | Some i => Some (S i)
      | None => if Ascii.eqb c "."%char then Some O else None
      end
  end.

Fixpoint all_dots (s : string) : bool :=
  match s with
  | EmptyString => true
  | String c s' => Ascii.eqb c "."%char && all_dots s'
  end.

(** [os.path.splitext] on a name without directory separator (the script
    only splits directory entries and names built from them): the extension
    starts at the last dot, unless only dots precede it. *)
Definition splitext (p : string) : string * string :=
  match rfind_dot p with
  | Some i => if all_dots (take i p) then (p, EmptyString) else (take i p, drop i p)
  | None => (p, EmptyString)
  end.

(** [l.index(x)]; [None] stands for [ValueError]. *)
Fixpoint index (x : string) (l : list string) : option nat :=
  match l with
  | [] => None
  | y :: l' => if decide (x = y) then Some O else S <$> index x l'
  end.

End Py.

(** ** Taxonomy merge and remap table (lines 104-114) *)

(** [merged_names = list(main_names); for n in new_names: if n not in
    merged_names: merged_names.append(n)] *)
Definition merge_step (merged : list string) (n : string) : list string :=
  if decide (n ∈ merged) then merged else merged ++ [n].

Definition merge_names (main_names new_names : list string) : list string :=
  foldl merge_step main_names new_names.

(** [{i: merged_names.index(name) for i, name in enumerate(new_names)}];
    [None] when [index] raises. *)
Fixpoint remap_from (merged : list string) (i : nat) (names : list string)
    (acc : gmap Z Z) : option (gmap Z Z) :=
  match names with
  | [] => Some acc
  | name :: rest =>
      j ← Py.index name merged;
      remap_from merged (S i) rest (<[Z.of_nat i := Z.of_nat j]> acc)
  end.

Definition new_to_merged (merged new_names : list string) : option (gmap Z Z) :=
  remap_from merged 0 new_names ∅.


(** ** The data of a run *)

(** Paths are relative to [ROOT], the directory of the script: a path is the
    list of its components, so [os.path.join(root, 'new', subset, 'images')]
    is [["new"; subset; "images"]]. *)
Abbreviation path := (list string) (only parsing).

(** One constructor for each [print] of the script, with the values it
    formats. *)
Inductive msg :=
| ErrMainYaml (p : path)
| ErrNoNew
| MainClasses (n : nat) (names : list string)
| NewClasses (n : nat) (names : list string)
| MergedClasses (n : nat) (names : list string)
| WarnMalformed (src_lbl : path) (ln : string)
| WarnParse (src_lbl : path) (ln : string)
| WarnMap (cid : Z) (src_lbl : path)
| PlannedHeader
| OpCopy (src_img dst_img : path)
| OpRemap (src_lbl dst_lbl : path)
| OpNoRemap (src_lbl : path)
| OpNoLabel
| SummaryHeader
| SummaryLine (k : string) (v : nat)
| MergedCount (n : nat)
| DryRunNote
| Applying
| BackedUp (src bak : path)
| MergeCompleted (p : path).

(** ** Label remapping *)

(** The lines a text file yields when iterated: universal newlines, so a
    line ends at LF, CR or CRLF.  Terminators are left out ([strip] removes
    them in the script). *)
Fixpoint text_lines (s : string) : list string :=
  match s with
  | EmptyString => []
  | String c s' =>
      if Ascii.eqb c "010"%char then EmptyString :: text_lines s'
      else if Ascii.eqb c "013"%char then
        match s' with
        | String c' s'' =>
            if Ascii.eqb c' "010"%char then EmptyString :: text_lines s''
            else EmptyString :: text_lines s'
        | EmptyString => [EmptyString]
        end
      else
        match text_lines s' with
        | l :: ls => String c l :: ls
        | [] => [String c EmptyString]
        end
  end.

(** [[ln.strip() for ln in f if ln.strip()]] *)
Definition stripped_lines (content : string) : list string :=
  filter (λ ln, ln ≠ EmptyString) (Py.strip <$> text_lines content).

(** The body of the planning loop (lines 156-174) for one line: the line
    appended to [remapped], or the warning printed before [continue]. *)
Definition plan_line (tbl : gmap Z Z) (nmerged : nat) (src_lbl : path)
    (ln : string) : string + msg :=
  let parts := Py.split ln in
  if (length parts <? 5)%nat then inr (WarnMalformed src_lbl ln)
  else
    match Py.int (hd EmptyString parts) with
    | None => inr (WarnParse src_lbl ln)
    | Some cid =>
        let new_cid :=
          match tbl !! cid with
          | Some c => Some c
          | None => if cid <? Z.of_nat nmerged then Some cid else None
          end in
        match new_cid with
        | None => inr (WarnMap cid src_lbl)
        | Some c => inl (Py.join " " (Py.str c :: tail parts))
        end
    end.

(** The planning loop: the remapped lines and the warnings, both in order. *)
Fixpoint plan_remap (tbl : gmap Z Z) (nmerged : nat) (src_lbl : path)
    (lines : list string) : list string * list msg :=
  match lines with
  | [] => ([], [])
  | ln :: rest =>
      let '(remapped, warns) := plan_remap tbl nmerged src_lbl rest in
      match plan_line tbl nmerged src_lbl ln with
      | inl out => (out :: remapped, warns)
      | inr w => (remapped, w :: warns)
      end
  end.

(** The body of the apply loop (lines 219-225) for one line. *)
Inductive apply_step :=
| AEmit (out : string)
| ASkip
| ARaise.

Definition apply_line (tbl : gmap Z Z) (ln : string) : apply_step :=
  let parts := Py.split ln in
  if (length parts <? 5)%nat then ASkip
  else
    match Py.int (hd EmptyString parts) with
    | None => ARaise
    | Some cid =>
        let new_cid := default cid (tbl !! cid) in
        AEmit (Py.join " " (Py.str new_cid :: tail parts))
    end.

(** The apply loop; [None] when [int] raises [ValueError]. *)
Fixpoint apply_remap (tbl : gmap Z Z) (lines : list string)
    : option (list string) :=
  match lines with
  | [] => Some []
  | ln :: rest =>
      match apply_line tbl ln with
      | ARaise => None
      | ASkip => apply_remap tbl rest
      | AEmit out => (out ::.) <$> apply_remap tbl rest
      end
  end.

(** ['\n'.join(remapped) + ('\n' if remapped else '')] *)
Definition label_text (remapped : list string) : string :=
  Py.join (String "010"%char EmptyString) remapped
  +:+ (if remapped is [] then EmptyString else String "010"%char EmptyString).

(** ** Destination names (lines 135-148) *)

Definition candidate (stem ext : string) (k : nat) : string :=
  "new_" +:+ stem +:+ "_" +:+ Py.str (Z.of_nat k) +:+ ext.

(** [while os.path.exists(dst_img): ...] with [dst_img_name] the current
    name and [k] the next suffix; [None] when the fuel runs out. *)
Fixpoint resolve_loop (taken : string → bool) (stem ext : string)
    (fuel k : nat) (dst_img_name : string) : option string :=
  if taken dst_img_name then
    match fuel with
    | O => None
    | S fuel' =>
        resolve_loop taken stem ext fuel' (S k) (candidate stem ext k)
    end
  else Some dst_img_name.

Definition resolve (taken : string → bool) (fuel : nat) (img_name : string)
    : option string :=
  let '(stem, ext) := Py.splitext img_name in
  resolve_loop taken stem ext fuel 1 ("new_" +:+ img_name).

(** [os.path.splitext(dst_img_name)[0] + '.txt'] *)
Definition label_name (dst_img_name : string) : string :=
  (Py.splitext dst_img_name).1 +:+ ".txt".

(** ** Taxonomy descriptors *)

(** The values a descriptor holds: integers, strings and lists of strings
    (section 6 of the specification: [nc], [names], path hints). *)
Inductive value :=
| VInt (n : Z)
| VStr (s : string)
| VList (l : list string).

(** A [dict] with string keys, in insertion order. *)
Abbreviation cfg := (list (string * value)) (only parsing).

Fixpoint dict_get (k : string) (d : cfg) : option value :=
  match d with
  | [] => None
  | (k', v) :: d' => if decide (k = k') then Some v else dict_get k d'
  end.

(** [d[k] = v]: an existing key keeps its position. *)
Fixpoint dict_set (k : string) (v : value) (d : cfg) : cfg :=
  match d with
  | [] => [(k, v)]
  | (k', v') :: d' =>
      if decide (k = k') then (k, v) :: d' else (k', v') :: dict_set k v d'
  end.

Fixpoint chars (s : string) : list string :=
  match s with
  | EmptyString => []
  | String c s' => String c EmptyString :: chars s'
  end.

(** [cfg.get('names') or []], as the sequence the script then iterates;
    [None] stands for the [TypeError] of iterating a non-zero integer. *)
Definition names_of (d : cfg) : option (list string) :=
  match dict_get "names" d with
  | None => Some []
  | Some (VList l) => Some l
  | Some (VStr s) => Some (chars s)
  | Some (VInt n) => if n =? 0 then Some [] else None
  end.

(** The YAML library, when it can be imported.  [safe_load] is [None] when
    the library raises or when the document is not a mapping (the script
    then raises at its first [.get]). *)
Record yaml_module := {
  safe_load : string → option cfg;
  dump : cfg → string
}.

(** *** The fallback parser of [load_yaml] (lines 43-58) *)

(** [line.split(':', 1)[1]] for a line that holds a colon *)
Fixpoint after_colon (s : string) : string :=
  match s with
  | EmptyString => EmptyString
  | String c s' => if Ascii.eqb c ":"%char then s' else after_colon s'
  end.

(** [s.split(',')] *)
Fixpoint split_comma (s : string) : list string :=
  match s with
  | EmptyString => [EmptyString]
  | String c s' =>
      if Ascii.eqb c ","%char then EmptyString :: split_comma s'
      else
        match split_comma s' with
        | l :: ls => String c l :: ls
        | [] => [String c EmptyString]
        end
  end.

Definition is_quote (c : ascii) : bool :=
  Ascii.eqb c "039"%char || Ascii.eqb c "034"%char.

(** [val[1:-1]] *)
Definition inner (val : string) : string :=
  Py.drop 1 (Py.take (String.length val - 1) val).

(** One iteration of [for line in lines]; [None] when [int] raises. *)
Definition fallback_line (d : cfg) (line : string) : option cfg :=
  if Py.startswith line "nc:" then
    n ← Py.int (Py.strip (after_colon line));
    Some (dict_set "nc" (VInt n) d)
  else if Py.startswith line "names:" then
    let val := Py.strip (after_colon line) in
    if Py.startswith val "[" && Py.endswith val "]" then
      let items := Py.strip (inner val) in
      if Py.is_empty items then Some (dict_set "names" (VList []) d)
      else
        Some (dict_set "names"
                (VList ((λ s, Py.strip_by is_quote (Py.strip s))
                          <$> split_comma items)) d)
    else Some d
  else Some d.

Fixpoint fallback_lines (d : cfg) (lines : list string) : option cfg :=
  match lines with
  | [] => Some d
  | line :: rest => d' ← fallback_line d line; fallback_lines d' rest
  end.

Definition fallback_parse (content : string) : option cfg :=
  fallback_lines []
    (filter (λ l, l ≠ EmptyString ∧ Py.startswith l "#" = false)
       (Py.strip <$> text_lines content)).

(** ** The filesystem under [ROOT] *)

Record filesystem := Fs {
  files : gmap path string;   (* regular files and their text *)
  dirs : gset path            (* directories *)
}.

Definition isfile (fs : filesystem) (p : path) : bool :=
  bool_decide (is_Some (files fs !! p)).
Definition isdir (fs : filesystem) (p : path) : bool :=
  bool_decide (p ∈ dirs fs).
Definition exists_ (fs : filesystem) (p : path) : bool :=
  isfile fs p || isdir fs p.

Definition entries (fs : filesystem) : gset path := dom (files fs) ∪ dirs fs.

Definition child_name (d p : path) : option string :=
  match last p with
  | Some n => if decide (p = d ++ [n]) then Some n else None
  | None => None
  end.

(** [os.listdir(d)]: the names of the entries of [d], in the order the
    filesystem yields them. *)
Definition listdir (fs : filesystem) (d : path) : list string :=
  omap (child_name d) (elements (entries fs)).

(** The non-empty prefixes of a path, the path itself last. *)
Definition ancestors (p : path) : list path :=
  (λ n, take n p) <$> seq 1 (length p).

Definition parent (p : path) : path := take (length p - 1) p.

(** [os.makedirs(d, exist_ok=True)]; [None] when a regular file is in the
    way. *)
Definition makedirs (fs : filesystem) (d : path) : option filesystem :=
  if existsb (isfile fs) (ancestors d) then None
  else Some (Fs (files fs) (dirs fs ∪ list_to_set (ancestors d))).

(** [open(p, 'w').write(text)]; [None] when [p] is a directory or its parent
    is not one. *)
Definition write_file (fs : filesystem) (p : path) (text : string)
    : option filesystem :=
  if isdir fs p || negb (isdir fs (parent p)) then None
  else Some (Fs (<[p := text]> (files fs)) (dirs fs)).

(** [shutil.copy2(src, dst)] *)
Definition copy_file (fs : filesystem) (src dst : path) : option filesystem :=
  text ← files fs !! src;
  write_file fs
    (if isdir fs dst then dst ++ [default EmptyString (last src)] else dst)
    text.

(** ** The script as a computation *)

Inductive exn := ValueError | TypeError | OSError | YAMLError.

Inductive outcome (A : Type) :=
| Done (a : A)          (* normal completion *)
| Exit (code : Z)       (* sys.exit *)
| Raised (e : exn)      (* uncaught exception *)
| OutOfFuel.            (* a loop exhausted its fuel *)
Arguments Done {A} a.
Arguments Exit {A} code.
Arguments Raised {A} e.
Arguments OutOfFuel {A}.

Record world := World {
  w_fs : filesystem;
  w_out : list msg      (* what was printed, oldest first *)
}.

Definition M (A : Type) : Type := world → outcome A * world.

Definition ret {A} (a : A) : M A := λ w, (Done a, w).
Definition bind {A B} (m : M A) (f : A → M B) : M B := λ w,
  match m w with
  | (Done a, w') => f a w'
  | (Exit c, w') => (Exit c, w')
  | (Raised e, w') => (Raised e, w')
  | (OutOfFuel, w') => (OutOfFuel, w')
  end.

#[global] Instance M_ret : MRet M := @ret.
#[global] Instance M_bind : MBind M := λ A B f m, bind m f.

Definition print (m : msg) : M unit := λ w,
  (Done (), World (w_fs w) (w_out w ++ [m])).
Definition sys_exit {A} (c : Z) : M A := λ w, (Exit c, w).
Definition raise {A} (e : exn) : M A := λ w, (Raised e, w).
Definition out_of_fuel {A} : M A := λ w, (OutOfFuel, w).
Definition get_fs : M filesystem := λ w, (Done (w_fs w), w).

(** A filesystem operation that may fail with [OSError]. *)
Definition fs_op (f : filesystem → option filesystem) : M unit := λ w,
  match f (w_fs w) with
  | Some fs' => (Done (), World fs' (w_out w))
  | None => (Raised OSError, w)
  end.

Definition or_raise {A} (e : exn) (o : option A) : M A :=
  match o with Some a => ret a | None => raise e end.

(** [for x in l: acc = body(acc, x)] *)
Fixpoint foldM {A B} (body : B → A → M B) (acc : B) (l : list A) : M B :=
  match l with
  | [] => ret acc
  | x :: l' => acc' ← body acc x; foldM body acc' l'
  end.

Definition forM {A} (body : A → M unit) (l : list A) : M unit :=
  foldM (λ _ x, body x) () l.

(** [open(p).read()] *)
Definition read_text (p : path) : M string :=
  fs ← get_fs; or_raise OSError (files fs !! p).

(** [ensure_dir] (lines 80-82) *)
Definition ensure_dir (d : path) : M unit :=
  fs ← get_fs;
  if isdir fs d then ret () else fs_op (λ fs, makedirs fs d).

Definition image_exts : list string :=
  [".jpg"; ".jpeg"; ".png"; ".bmp"; ".tif"; ".tiff"].

(** [list_files] (lines 71-77); its [labels_dir] argument is unused. *)
Definition list_files (fs : filesystem) (images_dir : path) : list string :=
  if isdir fs images_dir then
    filter (λ fn, existsb (Py.endswith (Py.lower fn)) image_exts = true)
      (listdir fs images_dir)
  else [].

(** A planned operation: the 4-tuple appended to [planned_ops]. *)
Record op := Op {
  src_img : path;
  dst_img : path;
  src_lbl : option path;
  dst_lbl : option path
}.

(** [summary[k] += 1] on a [defaultdict(int)] *)
Fixpoint bump (k : string) (summary : list (string * nat))
    : list (string * nat) :=
  match summary with
  | [] => [(k, 1%nat)]
  | (k', v) :: rest =>
      if decide (k = k') then (k', S v) :: rest else (k', v) :: bump k rest
  end.

Definition main_data_yaml : path := ["data.yaml"].
Definition new_data_yaml : path := ["new"; "data.yaml"].
Definition bak : path := ["data.yaml.bak"].
Definition new_images_dir (subset : string) : path := ["new"; subset; "images"].
Definition new_labels_dir (subset : string) : path := ["new"; subset; "labels"].
Definition main_images_dir (subset : string) : path := [subset; "images"].
Definition main_labels_dir (subset : string) : path := [subset; "labels"].
Definition subsets : list string := ["train"; "valid"; "test"].

(** The descriptor written back (lines 230-232). *)
Definition new_main_cfg (main_cfg : cfg) (merged_names : list string) : cfg :=
  dict_set "names" (VList merged_names)
    (dict_set "nc" (VInt (Z.of_nat (length merged_names))) main_cfg).

Definition nl : string := String "010"%char EmptyString.

Section Main.

(** [yaml] is [None] when the import failed; [format_value] is what an
    f-string makes of a descriptor value. *)
Context (yaml : option yaml_module) (format_value : value → string).

(** [load_yaml] (lines 38-58) *)
Definition load_yaml (p : path) : M cfg :=
  content ← read_text p;
  match yaml with
  | Some y => or_raise YAMLError (safe_load y content)
  | None => or_raise ValueError (fallback_parse content)
  end.

(** The simple writer (lines 239-246). *)
Definition fallback_text (main_cfg : cfg) (merged_names : list string)
    : string :=
  Py.join EmptyString
    (omap (λ key, (λ v, key +:+ ": " +:+ format_value v +:+ nl)
                    <$> dict_get key main_cfg)
       ["train"; "val"; "test"])
  +:+ nl
  +:+ "nc: " +:+ Py.str (Z.of_nat (length merged_names)) +:+ nl
  +:+ "names: [" +:+ Py.join ", " ((λ n, "'" +:+ n +:+ "'") <$> merged_names)
  +:+ "]" +:+ nl.

Definition descriptor_text (main_cfg : cfg) (merged_names : list string)
    : string :=
  match yaml with
  | Some y => dump y (new_main_cfg main_cfg merged_names)
  | None => fallback_text main_cfg merged_names
  end.

Definition plan_state : Type := list op * list (string * nat).

(** The body of [for img_name in list_files(...)] (lines 134-181). *)
Definition plan_image (tbl : gmap Z Z) (nmerged : nat) (subset : string)
    (st : plan_state) (img_name : string) : M plan_state :=
  fs ← get_fs;
  let src_img := new_images_dir subset ++ [img_name] in
  let stem := (Py.splitext img_name).1 in
  dst_img_name ←
    match resolve (λ n, exists_ fs (main_images_dir subset ++ [n]))
            (S (size (entries fs))) img_name with
    | Some n => ret n
    | None => out_of_fuel
    end;
  let dst_img := main_images_dir subset ++ [dst_img_name] in
  let src_lbl := new_labels_dir subset ++ [stem +:+ ".txt"] in
  let dst_lbl := main_labels_dir subset ++ [label_name dst_img_name] in
  remapped ←
    (if exists_ fs src_lbl then
       content ← read_text src_lbl;
       let '(remapped, warns) :=
         plan_remap tbl nmerged src_lbl (stripped_lines content) in
       forM print warns;; ret (Some remapped)
     else ret None);
  let o := Op src_img dst_img
             (if exists_ fs src_lbl then Some src_lbl else None)
             (if remapped is Some _ then Some dst_lbl else None) in
  let summary := bump (subset +:+ "_images") st.2 in
  let summary :=
    if remapped is Some _ then bump (subset +:+ "_labels") summary
    else summary in
  ret (st.1 ++ [o], summary).

(** The body of [for subset in ('train', 'valid', 'test')] (lines 122-181). *)
Definition plan_subset (tbl : gmap Z Z) (nmerged : nat) (st : plan_state)
    (subset : string) : M plan_state :=
  fs ← get_fs;
  if negb (isdir fs (new_images_dir subset)) then ret st
  else
    ensure_dir (main_images_dir subset);;
    ensure_dir (main_labels_dir subset);;
    fs ← get_fs;
    foldM (plan_image tbl nmerged subset) st
      (list_files fs (new_images_dir subset)).

(** Lines 185-192. *)
Definition report_op (o : op) : M unit :=
  print (OpCopy (src_img o) (dst_img o));;
  match src_lbl o, dst_lbl o with
  | Some s, Some d => print (OpRemap s d)
  | Some s, None => print (OpNoRemap s)
  | None, _ => print OpNoLabel
  end.

(** The body of the apply loop over [planned_ops] (lines 213-227). *)
Definition apply_op (tbl : gmap Z Z) (o : op) : M unit :=
  fs_op (λ fs, copy_file fs (src_img o) (dst_img o));;
  match src_lbl o, dst_lbl o with
  | Some s, Some d =>
      content ← read_text s;
      remapped ← or_raise ValueError (apply_remap tbl (stripped_lines content));
      fs_op (λ fs, write_file fs d (label_text remapped))
  | _, _ => ret ()
  end.

(** Lines 98-118 and 121-181: both descriptors, the merged taxonomy, the
    remap table and the plan. *)
Definition planning : M (cfg * list string * gmap Z Z * plan_state) :=
  main_cfg ← load_yaml main_data_yaml;
  fs ← get_fs;
  new_cfg ← (if isfile fs new_data_yaml then load_yaml new_data_yaml
             else ret []);
  main_names ← or_raise TypeError (names_of main_cfg);
  new_names ← or_raise TypeError (names_of new_cfg);
  let merged_names := merge_names main_names new_names in
  print (MainClasses (length main_names) main_names);;
  print (NewClasses (length new_names) new_names);;
  print (MergedClasses (length merged_names) merged_names);;
  tbl ← or_raise ValueError (new_to_merged merged_names new_names);
  st ← foldM (plan_subset tbl (length merged_names)) ([], []) subsets;
  ret (main_cfg, merged_names, tbl, st).

(** Lines 184-198. *)
Definition report (merged_names : list string) (st : plan_state) : M unit :=
  print PlannedHeader;;
  forM report_op st.1;;
  print SummaryHeader;;
  forM (λ kv : string * nat, print (SummaryLine kv.1 kv.2)) st.2;;
  print (MergedCount (length merged_names)).

(** Lines 206-249. *)
Definition apply_changes (main_cfg : cfg) (merged_names : list string)
    (tbl : gmap Z Z) (planned_ops : list op) : M Z :=
  print Applying;;
  fs_op (λ fs, copy_file fs main_data_yaml bak);;
  print (BackedUp main_data_yaml bak);;
  forM (apply_op tbl) planned_ops;;
  fs_op (λ fs, write_file fs main_data_yaml
                 (descriptor_text main_cfg merged_names));;
  print (MergeCompleted main_data_yaml);;
  ret 0.

(** [main] (lines 85-249) *)
Definition main (dry_run : bool) : M Z :=
  fs ← get_fs;
  if negb (isfile fs main_data_yaml) then
    print (ErrMainYaml main_data_yaml);; sys_exit 2
  else if negb (isdir fs ["new"]) then
    print ErrNoNew;; sys_exit 2
  else
    '(main_cfg, merged_names, tbl, st) ← planning;
    report merged_names st;;
    if dry_run then print DryRunNote;; ret 0
    else apply_changes main_cfg merged_names tbl st.1.

End Main.

(** * Vocabulary of the statements

    Predicates, closed forms and concrete datasets that the theorems below
    are stated with. *)

(** ** Taxonomy *)

(** The names of [new_names] not already present, in order: a name is kept
    when neither [seen] nor an earlier position of [new_names] holds it. *)
Fixpoint fresh (seen new_names : list string) : list string :=
  match new_names with
  | [] => []
  | n :: rest =>
      if decide (n ∈ seen) then fresh seen rest
      else n :: fresh (seen ++ [n]) rest
  end.

(** ** Computations and the filesystem *)

(** [m] leaves the filesystem as it found it. *)
Definition reads_only {A} (m : M A) : Prop :=
  ∀ w, w_fs (m w).2 = w_fs w.

(** [m] maintains the invariant [I] of the filesystem, whatever its outcome. *)
Definition keeps {A} (I : filesystem → Prop) (m : M A) : Prop :=
  ∀ w, I (w_fs w) → I (w_fs (m w).2).

(** [m], when it completes, maintains the invariant [I] of the filesystem and
    returns a value in [Q]. *)
Definition yields {A} (I : filesystem → Prop) (m : M A) (Q : A → Prop) : Prop :=
  ∀ w a w', I (w_fs w) → m w = (Done a, w') → I (w_fs w') ∧ Q a.

(** The directories planning may create: the destination images and labels
    directories, and their parents, of the splits the incoming dataset has. *)
Definition planned_dir (fs0 : filesystem) (d : path) : Prop :=
  ∃ subset, subset ∈ subsets
    ∧ isdir fs0 (new_images_dir subset) = true
    ∧ (d ∈ ancestors (main_images_dir subset)
       ∨ d ∈ ancestors (main_labels_dir subset)).

(** [fs] is [fs0] with the same files and possibly more directories, all of
    them planned ones. *)
Definition grows (fs0 fs : filesystem) : Prop :=
  files fs = files fs0
  ∧ dirs fs0 ⊆ dirs fs
  ∧ ∀ d, d ∈ dirs fs → d ∈ dirs fs0 ∨ planned_dir fs0 d.

(** ** Planned operations *)

(** The operation one iteration of the image loop appends, in closed form:
    [labelled] tells whether the sibling label file exists. *)
Definition planned_op (subset img_name dst_img_name : string)
    (labelled : bool) : op :=
  Op (new_images_dir subset ++ [img_name])
     (main_images_dir subset ++ [dst_img_name])
     (if labelled then
        Some (new_labels_dir subset ++ [(Py.splitext img_name).1 +:+ ".txt"])
      else None)
     (if labelled then
        Some (main_labels_dir subset ++ [label_name dst_img_name])
      else None).

(** The image destinations of the plan, when planning completes. *)
Definition planned_destinations (yaml : option yaml_module) (w : world)
    : option (list path) :=
  match (planning yaml w).1 with
  | Done (_, _, _, st) => Some (dst_img <$> st.1)
  | _ => None
  end.

(** The destinations of the operations are not on [fs0]. *)
Definition fresh_on (fs0 : filesystem) (st : plan_state) : Prop :=
  Forall (λ o, exists_ fs0 (dst_img o) = false) st.1.

(** ** Text *)

Fixpoint all_chars (P : ascii → bool) (s : string) : bool :=
  match s with
  | EmptyString => true
  | String c s' => P c && all_chars P s'
  end.

Definition is_digit (c : ascii) : bool := bool_decide (is_Some (Py.digit c)).

(** Line feed and carriage return. *)
Definition eol (c : ascii) : bool :=
  Ascii.eqb c "010"%char || Ascii.eqb c "013"%char.

Definition is_comma (c : ascii) : bool := Ascii.eqb c ","%char.

(** ** The one-line descriptor format of the simple writer *)

(** [f"'{n}'"] *)
Definition quoted (n : string) : string := "'" +:+ n +:+ "'".

Definition plain_char (c : ascii) : bool := negb (eol c) && negb (is_comma c).

Definition starts_plain (n : string) : bool :=
  match n with
  | EmptyString => true
  | String c _ => negb (is_quote c)
  end.

(** A name that the format [names: ['a', 'b']] can hold: no comma and no line
    break, and no quote character at either end. *)
Definition plain_name (n : string) : bool :=
  all_chars plain_char n && starts_plain n
  && String.eqb (Py.rstrip_by is_quote n) n.

(** What the fallback parser makes of an item: [strip], then the quote
    characters stripped from both ends. *)
Definition unquote (s : string) : string :=
  Py.strip_by is_quote (Py.strip s).

(** The two lines the simple writer always emits. *)
Definition nc_line (merged_names : list string) : string :=
  "nc: " +:+ Py.str (Z.of_nat (length merged_names)).

Definition names_line (merged_names : list string) : string :=
  "names: [" +:+ Py.join ", " (quoted <$> merged_names) +:+ "]".

(** ** Concrete datasets *)

(** The runs below take the fallback path ([yaml] is [None]), where no
    descriptor value is ever formatted. *)
Definition no_format : value → string := λ _, EmptyString.

(** A dataset whose incoming part has a [valid] split that the main dataset
    lacks, and no [new/data.yaml]. *)
Definition fs_new_split : filesystem :=
  Fs {[ ["data.yaml"] := "nc: 1" +:+ nl +:+ "names: ['cat']" +:+ nl;
        ["new"; "valid"; "images"; "a.jpg"] := "image a" ]}
     {[ []; ["train"]; ["train"; "images"];
        ["new"]; ["new"; "valid"]; ["new"; "valid"; "images"] ]}.

(** Main taxonomy cat, dog; incoming taxonomy dog, bird; one incoming image
    [a.jpg] in the train split with the label file [text]. *)
Definition fs_with_label (text : string) : filesystem :=
  Fs {[ ["data.yaml"] := "nc: 2" +:+ nl +:+ "names: ['cat', 'dog']" +:+ nl;
        ["new"; "data.yaml"] :=
          "nc: 2" +:+ nl +:+ "names: ['dog', 'bird']" +:+ nl;
        ["new"; "train"; "images"; "a.jpg"] := "image a";
        ["new"; "train"; "labels"; "a.txt"] := text ]}
     {[ []; ["train"]; ["train"; "images"]; ["train"; "labels"];
        ["new"]; ["new"; "train"]; ["new"; "train"; "images"];
        ["new"; "train"; "labels"] ]}.

(** The remapped lines planning computes for the label file [text] of
    [fs_with_label]. *)
Definition planned_lines (text : string) : option (list string) :=
  tbl ← new_to_merged (merge_names ["cat"; "dog"] ["dog"; "bird"])
         ["dog"; "bird"];
  Some (plan_remap tbl 3 ["new"; "train"; "labels"; "a.txt"]
          (stripped_lines text)).1.

(** An applying run on [fs_with_label text]. *)
Definition applied (text : string) : outcome Z * world :=
  main None no_format false (World (fs_with_label text) []).

Definition out_of_range_label : string :=
  "0 0.5 0.5 0.1 0.1" +:+ nl +:+ "5 0.5 0.5 0.1 0.1" +:+ nl.

Definition negative_label : string := "-1 0.5 0.5 0.1 0.1" +:+ nl.

Definition unparsable_label : string :=
  "x 0.5 0.5 0.1 0.1" +:+ nl +:+ "0 0.5 0.5 0.1 0.1" +:+ nl.

(** An earlier merge left [new_a.jpg]; the incoming batch holds [a.jpg] and
    [a_1.jpg]. *)
Definition fs_suffix_clash : filesystem :=
  Fs {[ ["data.yaml"] := "nc: 1" +:+ nl +:+ "names: ['cat']" +:+ nl;
        ["train"; "images"; "new_a.jpg"] := "earlier merge";
        ["new"; "train"; "images"; "a.jpg"] := "image a";
        ["new"; "train"; "images"; "a_1.jpg"] := "image a_1" ]}
     {[ []; ["train"]; ["train"; "images"]; ["train"; "labels"];
        ["new"]; ["new"; "train"]; ["new"; "train"; "images"] ]}.

(** A main dataset whose descriptor has a [path] entry, and an empty
    incoming dataset. *)
Definition fs_with_path : filesystem :=
  Fs {[ ["data.yaml"] :=
          "path: ../data" +:+ nl +:+ "nc: 1" +:+ nl +:+ "names: ['cat']"
          +:+ nl ]}
     {[ []; ["new"] ]}.

(** Three label lines with the class ids 0, 1 and 7. *)
Definition unmapped_label : string :=
  "0 0.5 0.5 0.1 0.1" +:+ nl +:+ "1 0.5 0.5 0.1 0.1" +:+ nl
  +:+ "7 0.5 0.5 0.1 0.1" +:+ nl.

(** Main taxonomy cat; an incoming dataset without [new/data.yaml], whose
    valid split holds the image [a.jpg] with the label file
    [unmapped_label]. *)
Definition fs_no_descriptor : filesystem :=
  Fs {[ ["data.yaml"] := "nc: 1" +:+ nl +:+ "names: ['cat']" +:+ nl;
        ["new"; "valid"; "images"; "a.jpg"] := "image a";
        ["new"; "valid"; "labels"; "a.txt"] := unmapped_label ]}
     {[ []; ["new"]; ["new"; "valid"]; ["new"; "valid"; "images"];
        ["new"; "valid"; "labels"] ]}.

(** * Verification *)

(** ** Text *)

Lemma string_length_app (s1 s2 : string) :
  String.length (s1 +:+ s2) = (String.length s1 + String.length s2)%nat.
Proof. induction s1 as [|c s1 IH]; simpl; [done|]. by rewrite IH. Qed.

Lemma string_app_inv_tail (s1 s2 e : string) :
  s1 +:+ e = s2 +:+ e → s1 = s2.
Proof.
  intros Heq.
  assert (String.length s1 = String.length s2) as Hlen.
  { apply (f_equal String.length) in Heq. rewrite !string_length_app in Heq.
    lia. }
  revert s2 Heq Hlen.
  induction s1 as [|c s1 IH]; intros [|c' s2] Heq Hlen; simpl in *;
    try done.
  injection Heq as -> Heq. f_equal. apply IH; [done|lia].
Qed.

Lemma string_app_cons (c : ascii) (s1 s2 : string) :
  String c s1 +:+ s2 = String c (s1 +:+ s2).
Proof. reflexivity. Qed.

Lemma string_app_nil (s : string) : EmptyString +:+ s = s.
Proof. reflexivity. Qed.

(** Push appends below the leading characters. *)
Ltac norm_app := rewrite ?string_app_cons, ?string_app_nil.

Lemma all_chars_app (P : ascii → bool) (s1 s2 : string) :
  all_chars P (s1 +:+ s2) = all_chars P s1 && all_chars P s2.
Proof.
  induction s1 as [|c s1 IH]; simpl; [done|]. by rewrite IH, andb_assoc.
Qed.

Lemma all_chars_impl (P Q : ascii → bool) (s : string) :
  (∀ c, P c = true → Q c = true) →
  all_chars P s = true → all_chars Q s = true.
Proof.
  intros HPQ. induction s as [|c s IH]; simpl; [done|].
  intros [Hc Hs]%andb_true_iff. rewrite (HPQ c Hc). by apply IH.
Qed.

Lemma string_app_assoc (s1 s2 s3 : string) :
  (s1 +:+ s2) +:+ s3 = s1 +:+ s2 +:+ s3.
Proof. induction s1 as [|c s1 IH]; norm_app; [done|]. by f_equal. Qed.

Lemma string_app_empty_r (s : string) : s +:+ EmptyString = s.
Proof. induction s as [|c s IH]; norm_app; [done|]. by rewrite IH. Qed.

Lemma drop_app_length (s1 s2 : string) :
  Py.drop (String.length s1) (s1 +:+ s2) = s2.
Proof. induction s1 as [|c s1 IH]; simpl; [by destruct s2|done]. Qed.

Lemma take_app_length (s1 s2 : string) :
  Py.take (String.length s1) (s1 +:+ s2) = s1.
Proof. induction s1 as [|c s1 IH]; simpl; [by destruct s2|by rewrite IH]. Qed.

Lemma lstrip_by_head (p : ascii → bool) (c : ascii) (s : string) :
  p c = false → Py.lstrip_by p (String c s) = String c s.
Proof. intros Hc. simpl. by rewrite Hc. Qed.

Lemma is_empty_app (s1 s2 : string) :
  s2 ≠ EmptyString → Py.is_empty (s1 +:+ s2) = false.
Proof. intros Hne. destruct s1; norm_app; [by destruct s2|done]. Qed.

Lemma rstrip_by_app (p : ascii → bool) (s1 s2 : string) :
  s2 ≠ EmptyString → Py.rstrip_by p s2 = s2 →
  Py.rstrip_by p (s1 +:+ s2) = s1 +:+ s2.
Proof.
  intros Hne Hs2. induction s1 as [|c s1 IH]; norm_app; [done|].
  simpl. by rewrite IH, is_empty_app, andb_false_r.
Qed.

Lemma rstrip_by_all (p : ascii → bool) (s : string) :
  all_chars (λ c, negb (p c)) s = true → Py.rstrip_by p s = s.
Proof.
  induction s as [|c s IH]; simpl; [done|].
  intros [Hc Hs]%andb_true_iff. rewrite IH by done.
  apply negb_true_iff in Hc. by rewrite Hc.
Qed.

Lemma rstrip_by_last (p : ascii → bool) (s : string) (c : ascii) :
  p c = false →
  Py.rstrip_by p (s +:+ String c EmptyString) = s +:+ String c EmptyString.
Proof.
  intros Hc. apply rstrip_by_app; [done|]. simpl. by rewrite Hc.
Qed.

Lemma rstrip_by_drop_last (p : ascii → bool) (s : string) (x : ascii) :
  p x = true →
  Py.rstrip_by p (s +:+ String x EmptyString) = Py.rstrip_by p s.
Proof.
  intros Hx. induction s as [|c s IH]; norm_app; simpl.
  - by rewrite Hx.
  - by rewrite IH.
Qed.

Lemma endswith_app (s suf : string) : Py.endswith (s +:+ suf) suf = true.
Proof.
  unfold Py.endswith. rewrite string_length_app.
  apply andb_true_iff. split; [apply Nat.leb_le; lia|].
  replace (String.length s + String.length suf - String.length suf)%nat
    with (String.length s) by lia.
  rewrite drop_app_length. apply String.eqb_refl.
Qed.

Lemma startswith_bracket (s : string) : Py.startswith ("[" +:+ s) "[" = true.
Proof. unfold Py.startswith. norm_app. simpl. by destruct s. Qed.

(** *** [int] reads back what [str] prints *)

Lemma digit_pretty_N_char (d : N) :
  (d < 10)%N → Py.digit (pretty_N_char d) = Some (Z.of_N d).
Proof.
  intros Hd.
  assert (d = 0 ∨ d = 1 ∨ d = 2 ∨ d = 3 ∨ d = 4 ∨ d = 5 ∨ d = 6 ∨ d = 7
          ∨ d = 8 ∨ d = 9)%N as Hcases by lia.
  by repeat destruct Hcases as [->|Hcases]; [..|subst d].
Qed.

Lemma digits_pretty_N_go (x : N) :
  (0 < x)%N →
  ∃ m, ∀ s acc prev,
    Py.digits acc prev (pretty_N_go x s)
    = Py.digits (acc * m + Z.of_N x) true s.
Proof.
  induction (N.lt_wf_0 x) as [x _ IH]. intros Hx.
  assert (Hmod : (x `mod` 10 < 10)%N) by (by apply N.mod_lt).
  destruct (decide (x < 10)%N) as [Hsmall|Hbig].
  - exists 10. intros s acc prev. rewrite pretty_N_go_step by done.
    rewrite N.div_small, pretty_N_go_0 by done. simpl.
    rewrite digit_pretty_N_char by done.
    rewrite N.mod_small by done. f_equal. lia.
  - destruct (IH (x `div` 10)%N) as [m Hm].
    { apply N.div_lt; lia. }
    { apply N.div_str_pos. lia. }
    exists (10 * m). intros s acc prev. rewrite pretty_N_go_step by done.
    rewrite Hm. simpl. rewrite digit_pretty_N_char by done.
    f_equal. rewrite (N.div_mod x 10) at 3 by done. lia.
Qed.

Lemma all_digits_pretty_N_go (x : N) (s : string) :
  all_chars is_digit s = true → all_chars is_digit (pretty_N_go x s) = true.
Proof.
  revert s. induction (N.lt_wf_0 x) as [x _ IH]. intros s Hs.
  destruct (decide (0 < x)%N) as [Hx|Hx].
  - rewrite pretty_N_go_step by done. apply IH; [by apply N.div_lt|].
    simpl. rewrite Hs, andb_true_r. unfold is_digit.
    rewrite digit_pretty_N_char by (by apply N.mod_lt). by apply bool_decide_eq_true.
  - assert (x = 0%N) as -> by lia. by rewrite pretty_N_go_0.
Qed.

Lemma str_of_nat (n : nat) :
  Py.str (Z.of_nat n) = pretty (N.of_nat n).
Proof.
  unfold Py.str, pretty, pretty_Z. destruct n as [|n]; [done|].
  simpl. unfold pretty_positive, pretty. f_equal; lia.
Qed.

Lemma digits_str (n : nat) :
  Py.digits 0 false (Py.str (Z.of_nat n)) = Some (Z.of_nat n)
  ∧ all_chars is_digit (Py.str (Z.of_nat n)) = true.
Proof.
  rewrite str_of_nat. unfold pretty, pretty_N.
  destruct (decide (N.of_nat n = 0%N)) as [Hz|Hnz].
  - assert (n = 0%nat) as -> by lia. done.
  - destruct (digits_pretty_N_go (N.of_nat n)) as [m Hm]; [lia|].
    rewrite Hm. simpl. split; [f_equal; lia|].
    by apply all_digits_pretty_N_go.
Qed.

Lemma is_digit_not_space (c : ascii) : is_digit c = true → Py.isspace c = false.
Proof.
  unfold is_digit, Py.digit, Py.isspace. intros Hd.
  apply bool_decide_eq_true in Hd. destruct Hd as [d Hd].
  destruct (Nat.leb_spec 48 (nat_of_ascii c)),
    (Nat.leb_spec (nat_of_ascii c) 57); simpl in Hd; try done.
  repeat match goal with |- context [Nat.leb ?a ?b] =>
    destruct (Nat.leb_spec a b) end; simpl; try done; lia.
Qed.

Lemma strip_digits (s : string) :
  all_chars is_digit s = true → Py.strip s = s.
Proof.
  intros Hs. unfold Py.strip, Py.strip_by.
  assert (Py.lstrip_by Py.isspace s = s) as ->.
  { destruct s as [|c s]; [done|]. simpl in Hs.
    apply andb_true_iff in Hs as [Hc _].
    apply lstrip_by_head. by apply is_digit_not_space. }
  apply rstrip_by_all. revert Hs. apply all_chars_impl.
  intros c Hc. by rewrite is_digit_not_space.
Qed.

(** [int(str(n)) == n] for a count [n]. *)
Lemma int_str (n : nat) : Py.int (Py.str (Z.of_nat n)) = Some (Z.of_nat n).
Proof.
  destruct (digits_str n) as [Hdigits Hall].
  unfold Py.int. rewrite strip_digits by done.
  destruct (Py.str (Z.of_nat n)) as [|c r] eqn:Hstr; [done|].
  simpl in Hall. apply andb_true_iff in Hall as [Hc _].
  unfold is_digit in Hc. apply bool_decide_eq_true in Hc as [d Hd].
  destruct c as [[] [] [] [] [] [] [] []]; try done.
Qed.

(** *** Lines and comma-separated items *)

Lemma text_lines_line (l rest : string) :
  all_chars (λ c, negb (eol c)) l = true →
  text_lines (l +:+ nl +:+ rest) = l :: text_lines rest.
Proof.
  induction l as [|c l IH]; norm_app; intros Hl.
  - unfold nl. by norm_app.
  - simpl in Hl. apply andb_true_iff in Hl as [Hc Hl].
    apply negb_true_iff, orb_false_iff in Hc as [Hlf Hcr].
    simpl. rewrite Hlf, Hcr. by rewrite IH.
Qed.

Lemma split_comma_plain (s : string) :
  all_chars (λ c, negb (is_comma c)) s = true → split_comma s = [s].
Proof.
  induction s as [|c s IH]; simpl; [done|].
  intros [Hc Hs]%andb_true_iff. apply negb_true_iff in Hc.
  unfold is_comma in Hc. by rewrite Hc, IH.
Qed.

Lemma split_comma_app (a rest : string) :
  all_chars (λ c, negb (is_comma c)) a = true →
  split_comma (a +:+ String ","%char rest) = a :: split_comma rest.
Proof.
  induction a as [|c a IH]; norm_app; intros Ha.
  - done.
  - simpl in Ha. apply andb_true_iff in Ha as [Hc Ha].
    apply negb_true_iff in Hc. unfold is_comma in Hc.
    simpl. by rewrite Hc, IH.
Qed.

(** ** Computations *)

Lemma forM_print (l : list msg) (w : world) :
  forM print l w = (Done (), World (w_fs w) (w_out w ++ l)).
Proof.
  revert w. induction l as [|m l IH]; intros [fs out].
  - simpl. by rewrite app_nil_r.
  - unfold forM in *. simpl. unfold mbind, M_bind, bind. simpl.
    rewrite IH. simpl. by rewrite <- app_assoc.
Qed.

Lemma bind_Done {A B} (m : M A) (f : A → M B) (w w' : world) (b : B) :
  (m ≫= f) w = (Done b, w') →
  ∃ a w1, m w = (Done a, w1) ∧ f a w1 = (Done b, w').
Proof.
  unfold mbind, M_bind, bind.
  destruct (m w) as [[a| | |] w1]; try done. intros Hf. by exists a, w1.
Qed.

Lemma fs_op_Done (f : filesystem → option filesystem) (w w' : world) (u : ()) :
  fs_op f w = (Done u, w') → f (w_fs w) = Some (w_fs w').
Proof.
  unfold fs_op. destruct (f (w_fs w)) as [fs'|]; [|done]. by intros [= _ <-].
Qed.

Lemma reads_only_keeps {A} (I : filesystem → Prop) (m : M A) :
  reads_only m → keeps I m.
Proof. intros Hm w HI. by rewrite Hm. Qed.

Lemma reads_only_ret {A} (a : A) : reads_only (ret a).
Proof. by intros w. Qed.

Lemma reads_only_print (m : msg) : reads_only (print m).
Proof. by intros w. Qed.

Lemma reads_only_raise {A} (e : exn) : reads_only (raise (A := A) e).
Proof. by intros w. Qed.

Lemma reads_only_exit {A} (c : Z) : reads_only (sys_exit (A := A) c).
Proof. by intros w. Qed.

Lemma reads_only_get_fs : reads_only get_fs.
Proof. by intros w. Qed.

Lemma reads_only_or_raise {A} (e : exn) (o : option A) :
  reads_only (or_raise e o).
Proof. by destruct o. Qed.

Lemma reads_only_bind {A B} (m : M A) (f : A → M B) :
  reads_only m → (∀ a, reads_only (f a)) → reads_only (m ≫= f).
Proof.
  intros Hm Hf w. unfold mbind, M_bind, bind.
  specialize (Hm w). destruct (m w) as [[a| | |] w1]; simpl in *; try done.
  by rewrite Hf.
Qed.

Lemma keeps_bind {A B} (I : filesystem → Prop) (m : M A) (f : A → M B) :
  keeps I m → (∀ a, keeps I (f a)) → keeps I (m ≫= f).
Proof.
  intros Hm Hf w HI. unfold mbind, M_bind, bind.
  specialize (Hm w HI). destruct (m w) as [[a| | |] w1]; simpl in *; try done.
  by apply Hf.
Qed.

(** Binding the current filesystem: the continuation is run on it. *)
Lemma keeps_get_fs {B} (I : filesystem → Prop) (k : filesystem → M B) :
  (∀ w, I (w_fs w) → I (w_fs (k (w_fs w) w).2)) → keeps I (get_fs ≫= k).
Proof. intros Hk w HI. by apply Hk. Qed.

Lemma reads_only_foldM {A B} (body : B → A → M B) (acc : B) (l : list A) :
  (∀ acc x, reads_only (body acc x)) → reads_only (foldM body acc l).
Proof.
  intros Hbody. revert acc. induction l as [|x l IH]; intros acc; simpl.
  - apply reads_only_ret.
  - apply reads_only_bind; [apply Hbody|]. intros acc'. apply IH.
Qed.

Lemma keeps_foldM {A B} (I : filesystem → Prop) (body : B → A → M B)
    (acc : B) (l : list A) :
  (∀ acc x, x ∈ l → keeps I (body acc x)) → keeps I (foldM body acc l).
Proof.
  revert acc. induction l as [|x l IH]; intros acc Hbody; simpl.
  - apply reads_only_keeps, reads_only_ret.
  - apply keeps_bind; [apply Hbody; by left|].
    intros acc'. apply IH. intros acc'' y Hy. apply Hbody. by right.
Qed.

Lemma yields_bind {A B} (I : filesystem → Prop) (m : M A) (f : A → M B)
    (Q : A → Prop) (R : B → Prop) :
  yields I m Q → (∀ a, Q a → yields I (f a) R) → yields I (m ≫= f) R.
Proof.
  intros Hm Hf w b w' HI Hrun.
  apply bind_Done in Hrun as (a & w1 & Hma & Hfa).
  destruct (Hm _ _ _ HI Hma) as [HI1 HQ]. by eapply Hf.
Qed.

Lemma yields_ret {A} (I : filesystem → Prop) (a : A) (Q : A → Prop) :
  Q a → yields I (ret a) Q.
Proof. by intros HQ w a' w' HI [= <- <-]. Qed.

Lemma yields_foldM {A B} (I : filesystem → Prop) (body : B → A → M B)
    (Q : B → Prop) (l : list A) (acc : B) :
  (∀ acc x, x ∈ l → Q acc → yields I (body acc x) Q) →
  Q acc → yields I (foldM body acc l) Q.
Proof.
  revert acc. induction l as [|x l IH]; intros acc Hbody HQ; simpl.
  - by apply yields_ret.
  - eapply yields_bind; [apply Hbody; [by left|done]|].
    intros acc1 HQ1. apply IH; [|done].
    intros acc2 y Hy. apply Hbody. by right.
Qed.

Lemma reads_only_read_text (p : path) : reads_only (read_text p).
Proof.
  apply reads_only_bind; [apply reads_only_get_fs|].
  intros fs. apply reads_only_or_raise.
Qed.

Lemma reads_only_load_yaml (yaml : option yaml_module) (p : path) :
  reads_only (load_yaml yaml p).
Proof.
  apply reads_only_bind; [apply reads_only_read_text|].
  intros content. destruct yaml; apply reads_only_or_raise.
Qed.

Lemma load_yaml_world (yaml : option yaml_module) (p : path) (w : world) :
  (load_yaml yaml p w).2 = w.
Proof.
  unfold load_yaml, read_text, mbind, M_bind, bind, get_fs, or_raise. simpl.
  destruct (files (w_fs w) !! p) as [content|]; simpl; [|done].
  destruct yaml as [y|]; [by destruct (safe_load y content)
                         |by destruct (fallback_parse content)].
Qed.

(** ** Taxonomy merge *)

Lemma merge_names_fresh main_names new_names :
  merge_names main_names new_names = main_names ++ fresh main_names new_names.
Proof.
  unfold merge_names. revert main_names.
  induction new_names as [|n rest IH]; intros acc; simpl.
  - by rewrite app_nil_r.
  - unfold merge_step at 2. destruct (decide (n ∈ acc)); [apply IH|].
    rewrite IH. by rewrite <- app_assoc.
Qed.

Lemma elem_of_fresh seen new_names n :
  n ∈ fresh seen new_names ↔ n ∈ new_names ∧ n ∉ seen.
Proof.
  revert seen. induction new_names as [|m rest IH]; intros seen; simpl.
  - set_solver.
  - destruct (decide (m ∈ seen)) as [Hin|Hout].
    + rewrite IH. set_solver.
    + rewrite elem_of_cons, IH, elem_of_cons, not_elem_of_app,
        list_elem_of_singleton.
      destruct (decide (n = m)); naive_solver.
Qed.

Lemma NoDup_fresh seen new_names : NoDup (fresh seen new_names).
Proof.
  revert seen. induction new_names as [|m rest IH]; intros seen; simpl.
  - constructor.
  - destruct (decide (m ∈ seen)); [apply IH|].
    constructor; [|apply IH].
    rewrite elem_of_fresh. set_solver.
Qed.

Lemma fresh_sublist seen new_names : fresh seen new_names `sublist_of` new_names.
Proof.
  revert seen. induction new_names as [|m rest IH]; intros seen; simpl.
  - constructor.
  - destruct (decide (m ∈ seen)).
    + by apply sublist_cons.
    + by apply sublist_skip.
Qed.

Lemma filter_ext_elem {A} (P Q : A → Prop) `{!∀ x, Decision (P x)}
    `{!∀ x, Decision (Q x)} (l : list A) :
  (∀ x, x ∈ l → P x ↔ Q x) → filter P l = filter Q l.
Proof.
  induction l as [|a l IH]; intros Hext; [done|].
  rewrite !filter_cons.
  rewrite IH by (intros x Hx; apply Hext; by right).
  destruct (decide (P a)) as [HP|HP], (decide (Q a)) as [HQ|HQ]; try done;
    exfalso; apply (Hext a) in HP || apply (Hext a) in HQ; by try left.
Qed.

Lemma fresh_NoDup_filter seen new_names :
  NoDup new_names → fresh seen new_names = filter (λ n, n ∉ seen) new_names.
Proof.
  revert seen. induction new_names as [|m rest IH]; intros seen Hnd; [done|].
  apply NoDup_cons in Hnd as [Hm Hnd]. simpl.
  destruct (decide (m ∈ seen)) as [Hin|Hout].
  - rewrite filter_cons_False by (by intros ?). by apply IH.
  - rewrite filter_cons_True by done. f_equal.
    rewrite IH by done. apply filter_ext_elem.
    intros x Hx. rewrite not_elem_of_app, list_elem_of_singleton.
    naive_solver.
Qed.

Lemma length_fresh seen new_names :
  length (fresh seen new_names)
  = size (list_to_set new_names ∖ list_to_set seen : gset string).
Proof.
  rewrite <- (size_list_to_set (C := gset string)) by apply NoDup_fresh.
  f_equal. apply set_eq. intros n.
  rewrite elem_of_list_to_set, elem_of_fresh. set_solver.
Qed.

Lemma elem_of_merge_names main_names new_names n :
  n ∈ merge_names main_names new_names ↔ n ∈ main_names ∨ n ∈ new_names.
Proof.
  rewrite merge_names_fresh, elem_of_app, elem_of_fresh.
  destruct (decide (n ∈ main_names)); naive_solver.
Qed.

(** [C4] The merged taxonomy is [main_names] followed, in order, by the names
    of [new_names] that are not already present (each once); its length is
    [len(main_names)] plus the number of names of [new_names] outside
    [main_names]; every position of [main_names] keeps its name; empty inputs
    merge to the identity. *)
Theorem merge_names_spec (main_names new_names : list string) :
  let merged := merge_names main_names new_names in
  merged = main_names ++ fresh main_names new_names
  ∧ (NoDup new_names →
     merged = main_names ++ filter (λ n, n ∉ main_names) new_names)
  ∧ NoDup (fresh main_names new_names)
  ∧ fresh main_names new_names `sublist_of` new_names
  ∧ (∀ n, n ∈ fresh main_names new_names ↔ n ∈ new_names ∧ n ∉ main_names)
  ∧ length merged
    = (length main_names
       + size (list_to_set new_names ∖ list_to_set main_names : gset string))%nat
  ∧ (∀ i n, main_names !! i = Some n → merged !! i = Some n)
  ∧ merge_names main_names [] = main_names
  ∧ merge_names [] [] = [].
Proof.
  cbv zeta. rewrite merge_names_fresh.
  split_and!; try done.
  - intros Hnd. by rewrite fresh_NoDup_filter.
  - apply NoDup_fresh.
  - apply fresh_sublist.
  - intros n. apply elem_of_fresh.
  - by rewrite length_app, length_fresh.
  - intros i n Hi. by apply lookup_app_l_Some.
Qed.

(** ** Remap table *)

Lemma index_elem_of (x : string) (l : list string) :
  x ∈ l →
  ∃ j, Py.index x l = Some j ∧ l !! j = Some x
       ∧ ∀ j', (j' < j)%nat → l !! j' ≠ Some x.
Proof.
  induction l as [|y l IH]; intros Hin; [by apply elem_of_nil in Hin|].
  simpl. destruct (decide (x = y)) as [->|Hne].
  - exists 0%nat. split_and!; [done..|]. intros j' Hj'. lia.
  - apply elem_of_cons in Hin as [?|Hin]; [done|].
    destruct (IH Hin) as (j & -> & Hj & Hmin).
    exists (S j). split_and!; [done..|].
    intros [|j'] Hlt; simpl; [congruence|]. apply Hmin. lia.
Qed.

Lemma remap_from_spec (merged : list string) (names : list string) :
  (∀ n, n ∈ names → n ∈ merged) →
  ∀ (i : nat) (acc : gmap Z Z),
  ∃ tbl, remap_from merged i names acc = Some tbl
    ∧ (∀ k, (k < Z.of_nat i ∨ Z.of_nat (i + length names) ≤ k) →
            tbl !! k = acc !! k)
    ∧ (∀ d name, names !! d = Some name →
         ∃ j, tbl !! Z.of_nat (i + d) = Some (Z.of_nat j)
              ∧ Py.index name merged = Some j).
Proof.
  induction names as [|name rest IH]; intros Hin i acc; simpl.
  - exists acc. split_and!; [done..|]. intros d name Hd. done.
  - destruct (index_elem_of name merged) as (j & Hj & _); [apply Hin; by left|].
    rewrite Hj. simpl.
    destruct (IH (λ n Hn, Hin n (list_elem_of_further _ _ _ Hn)) (S i)
                (<[Z.of_nat i := Z.of_nat j]> acc)) as (tbl & -> & Hout & Hidx).
    exists tbl. split_and!; [done | |].
    + intros k Hk. rewrite Hout by lia. apply lookup_insert_ne. lia.
    + intros [|d] name' Hd; simpl in Hd.
      * injection Hd as <-. exists j. split; [|done].
        rewrite Nat.add_0_r, Hout by lia. apply lookup_insert_eq.
      * destruct (Hidx d name' Hd) as (j' & Hj' & Hi').
        exists j'. split; [|done].
        by replace (i + S d)%nat with (S i + d)%nat by lia.
Qed.

(** [C6] The remap table exists for every pair of name lists (building it
    never raises), its keys are exactly the indices [0 .. len(new_names)-1],
    and it sends index [i] to the first position of [new_names[i]] in the
    merged taxonomy.  With main taxonomy cat, dog and incoming dog, bird the
    merged taxonomy is cat, dog, bird and the label line
    "0 0.5 0.5 0.1 0.1" is remapped to "1 0.5 0.5 0.1 0.1", in the planning
    loop and in the apply loop. *)
Theorem new_to_merged_spec (main_names new_names : list string) :
  let merged := merge_names main_names new_names in
  (∃ tbl, new_to_merged merged new_names = Some tbl
     ∧ (∀ k, is_Some (tbl !! k) ↔ 0 ≤ k < Z.of_nat (length new_names))
     ∧ (∀ i name, new_names !! i = Some name →
          ∃ j, tbl !! Z.of_nat i = Some (Z.of_nat j)
               ∧ Py.index name merged = Some j
               ∧ merged !! j = Some name
               ∧ ∀ j', (j' < j)%nat → merged !! j' ≠ Some name))
  ∧ merge_names ["cat"; "dog"] ["dog"; "bird"] = ["cat"; "dog"; "bird"]
  ∧ (∀ src_lbl,
       (λ tbl, (plan_line tbl 3 src_lbl "0 0.5 0.5 0.1 0.1",
                apply_line tbl "0 0.5 0.5 0.1 0.1"))
         <$> new_to_merged (merge_names ["cat"; "dog"] ["dog"; "bird"])
               ["dog"; "bird"]
       = Some (inl "1 0.5 0.5 0.1 0.1", AEmit "1 0.5 0.5 0.1 0.1")).
Proof.
  cbv zeta. split_and!.
  - destruct (remap_from_spec (merge_names main_names new_names) new_names)
      with (i := 0%nat) (acc := (∅ : gmap Z Z)) as (tbl & Htbl & Hout & Hidx).
    { intros n Hn. apply elem_of_merge_names. by right. }
    exists tbl. split_and!; [done | |].
    + intros k. split.
      * intros Hk. destruct (decide (0 ≤ k < Z.of_nat (length new_names)))
          as [|Hno]; [done|].
        rewrite Hout in Hk by (simpl; lia).
        rewrite lookup_empty in Hk. by destruct Hk.
      * intros Hk.
        destruct (lookup_lt_is_Some_2 new_names (Z.to_nat k)) as [name Hname];
          [lia|].
        destruct (Hidx _ _ Hname) as (j & Hj & _).
        simpl in Hj. rewrite Z2Nat.id in Hj by lia. by rewrite Hj.
    + intros i name Hi. destruct (Hidx i name Hi) as (j & Hj & Hix).
      exists j. split_and!; [done..| |].
      * destruct (index_elem_of name (merge_names main_names new_names))
          as (j' & Hj' & Hlk & _); [|congruence].
        apply elem_of_merge_names. right. by eapply list_elem_of_lookup_2.
      * destruct (index_elem_of name (merge_names main_names new_names))
          as (j' & Hj' & _ & Hmin); [|].
        { apply elem_of_merge_names. right. by eapply list_elem_of_lookup_2. }
        rewrite Hix in Hj'. injection Hj' as <-. done.
  - reflexivity.
  - intros src_lbl. vm_compute. reflexivity.
Qed.

(** ** The two remapping loops *)

(** Every line the planning loop reads is either appended to [remapped] or
    answered by exactly one warning. *)
Lemma plan_remap_accounts (tbl : gmap Z Z) (nmerged : nat) (src_lbl : path)
    (lines : list string) :
  (length (plan_remap tbl nmerged src_lbl lines).1
   + length (plan_remap tbl nmerged src_lbl lines).2)%nat = length lines.
Proof.
  induction lines as [|ln rest IH]; [done|]. simpl.
  destruct (plan_remap tbl nmerged src_lbl rest) as [remapped warns].
  destruct (plan_line tbl nmerged src_lbl ln); simpl in *; lia.
Qed.

(** In the planning loop a short line and a line whose class id does not
    parse are dropped with their warning. *)
Lemma plan_line_malformed (tbl : gmap Z Z) (nmerged : nat) (src_lbl : path)
    (ln : string) :
  (length (Py.split ln) < 5)%nat →
  plan_line tbl nmerged src_lbl ln = inr (WarnMalformed src_lbl ln).
Proof.
  intros Hlen. unfold plan_line.
  by destruct (Nat.ltb_spec (length (Py.split ln)) 5); [|lia].
Qed.

Lemma plan_line_unparsable (tbl : gmap Z Z) (nmerged : nat) (src_lbl : path)
    (ln : string) :
  (5 ≤ length (Py.split ln))%nat →
  Py.int (hd EmptyString (Py.split ln)) = None →
  plan_line tbl nmerged src_lbl ln = inr (WarnParse src_lbl ln).
Proof.
  intros Hlen Hint. unfold plan_line.
  destruct (Nat.ltb_spec (length (Py.split ln)) 5); [lia|]. by rewrite Hint.
Qed.

(** The class id of a line the planning loop emits is below the merged class
    count whenever the table maps into the merged taxonomy. *)
Lemma plan_line_upper_bound (tbl : gmap Z Z) (nmerged : nat) (src_lbl : path)
    (ln out : string) :
  (∀ k c, tbl !! k = Some c → 0 ≤ c < Z.of_nat nmerged) →
  plan_line tbl nmerged src_lbl ln = inl out →
  ∃ cid c, Py.int (hd EmptyString (Py.split ln)) = Some cid
    ∧ out = Py.join " " (Py.str c :: tail (Py.split ln))
    ∧ c < Z.of_nat nmerged
    ∧ (tbl !! cid = Some c ∨ tbl !! cid = None ∧ c = cid).
Proof.
  intros Htbl. unfold plan_line.
  destruct (length (Py.split ln) <? 5)%nat; [done|].
  destruct (Py.int _) as [cid|]; [|done].
  destruct (tbl !! cid) as [c|] eqn:Hc.
  - intros [= <-]. exists cid, c. split_and!; [done..| |by left].
    by apply (Htbl cid).
  - destruct (Z.ltb_spec cid (Z.of_nat nmerged)); [|done].
    intros [= <-]. exists cid, cid. split_and!; [done..|by right].
Qed.

(** On a label file about which planning has nothing to warn, the apply loop
    writes the planned lines. *)
Lemma apply_remap_agrees (tbl : gmap Z Z) (nmerged : nat) (src_lbl : path)
    (lines : list string) :
  (plan_remap tbl nmerged src_lbl lines).2 = [] →
  apply_remap tbl lines = Some (plan_remap tbl nmerged src_lbl lines).1.
Proof.
  induction lines as [|ln rest IH]; [done|]. simpl.
  destruct (plan_remap tbl nmerged src_lbl rest) as [remapped warns].
  destruct (plan_line tbl nmerged src_lbl ln) as [out|w] eqn:Hline; [|done].
  simpl in *. intros ->. specialize (IH eq_refl).
  unfold plan_line in Hline. unfold apply_line.
  destruct (length (Py.split ln) <? 5)%nat; [done|].
  destruct (Py.int _) as [cid|]; [|done].
  destruct (tbl !! cid) as [c|]; simpl.
  - injection Hline as <-. by rewrite IH.
  - destruct (cid <? Z.of_nat nmerged); [|done].
    injection Hline as <-. by rewrite IH.
Qed.

(** [C2] The label file written by an applying run is not the one planned:
    for a label file with the lines "0 0.5 0.5 0.1 0.1" and
    "5 0.5 0.5 0.1 0.1" planning keeps the first line only (and warns about
    class id 5), while the apply loop writes both. *)
Lemma apply_writes_unplanned_line :
  planned_lines out_of_range_label = Some ["1 0.5 0.5 0.1 0.1"]
  ∧ WarnMap 5 ["new"; "train"; "labels"; "a.txt"]
      ∈ w_out (applied out_of_range_label).2
  ∧ (applied out_of_range_label).1 = Done 0
  ∧ files (w_fs (applied out_of_range_label).2)
      !! ["train"; "labels"; "new_a.txt"]
    = Some ("1 0.5 0.5 0.1 0.1" +:+ nl +:+ "5 0.5 0.5 0.1 0.1" +:+ nl).
Proof.
  split_and!; [vm_compute; reflexivity| |vm_compute; reflexivity..].
  apply list_elem_of_In.
  vm_compute. tauto.
Qed.

(** [C3] Class ids outside [0, len(merged_names)) reach the output: with a
    merged taxonomy of 3 names, planning keeps the line
    "-1 0.5 0.5 0.1 0.1" as it is (only the upper bound is tested), without
    a warning, and an applying run writes it; the apply loop also writes
    class id 5, which planning had dropped. *)
Lemma out_of_range_ids_kept :
  planned_lines negative_label = Some ["-1 0.5 0.5 0.1 0.1"]
  ∧ Forall (λ m, ∀ cid p, m ≠ WarnMap cid p) (w_out (applied negative_label).2)
  ∧ files (w_fs (applied negative_label).2)
      !! ["train"; "labels"; "new_a.txt"]
    = Some ("-1 0.5 0.5 0.1 0.1" +:+ nl)
  ∧ apply_remap {[0 := 1; 1 := 2]} ["5 0.5 0.5 0.1 0.1"]
    = Some ["5 0.5 0.5 0.1 0.1"].
Proof.
  split_and!; [vm_compute; reflexivity| |vm_compute; reflexivity..].
  vm_compute. repeat constructor; intros; discriminate.
Qed.

(** [C8] In apply mode a line whose first token is not an integer aborts the
    run: planning warns about the line and goes on, but the apply loop calls
    [int] unguarded, so the run ends with [ValueError] after the backup and
    the image copy, with no label file written and [data.yaml] not updated.
    A short line is skipped by the apply loop without a message of its own. *)
Lemma apply_aborts_on_unparsable_line :
  planned_lines unparsable_label = Some ["1 0.5 0.5 0.1 0.1"]
  ∧ WarnParse ["new"; "train"; "labels"; "a.txt"] "x 0.5 0.5 0.1 0.1"
      ∈ w_out (applied unparsable_label).2
  ∧ (applied unparsable_label).1 = Raised ValueError
  ∧ files (w_fs (applied unparsable_label).2)
      !! ["train"; "labels"; "new_a.txt"] = None
  ∧ files (w_fs (applied unparsable_label).2) !! ["train"; "images"; "new_a.jpg"]
    = Some "image a"
  ∧ files (w_fs (applied unparsable_label).2) !! ["data.yaml"]
    = files (fs_with_label unparsable_label) !! ["data.yaml"]
  ∧ apply_line {[0 := 1; 1 := 2]} "0 0.5 0.5" = ASkip.
Proof.
  split_and!; [vm_compute; reflexivity| |vm_compute; reflexivity..].
  apply list_elem_of_In. vm_compute. tauto.
Qed.

(** ** Destination names *)

Lemma candidate_inj (stem ext : string) : Inj (=) (=) (candidate stem ext).
Proof.
  intros k k' Heq. unfold candidate in Heq.
  do 3 apply String.app_inj in Heq.
  apply string_app_inv_tail in Heq.
  apply (inj Z.of_nat). by apply (inj (pretty : Z → string)).
Qed.

Section Resolve.

Context (taken : string → bool) (stem ext : string).

(** The loop returns the first free name of the sequence it walks, provided
    one of the next [fuel] candidates is free. *)
Lemma resolve_loop_spec (fuel k : nat) (name : string) :
  (taken name = true →
   ∃ j, (j < fuel)%nat ∧ taken (candidate stem ext (k + j)) = false) →
  ∃ dst, resolve_loop taken stem ext fuel k name = Some dst
    ∧ taken dst = false
    ∧ if taken name then
        ∃ k', (k ≤ k')%nat ∧ dst = candidate stem ext k'
              ∧ ∀ i, (k ≤ i < k')%nat → taken (candidate stem ext i) = true
      else dst = name.
Proof.
  revert k name. induction fuel as [|fuel IH]; intros k name Hfree.
  - destruct (taken name) eqn:Hname.
    + destruct Hfree as (j & Hj & _); [done|lia].
    + exists name. simpl. by rewrite Hname.
  - simpl. destruct (taken name) eqn:Hname.
    + destruct (IH (S k) (candidate stem ext k)) as (dst & Hdst & Hfr & Hwhich).
      { intros Hk. destruct Hfree as (j & Hj & Hjfree); [done|].
        destruct j as [|j].
        - rewrite Nat.add_0_r in Hjfree. congruence.
        - exists j. split; [lia|].
          by replace (S k + j)%nat with (k + S j)%nat by lia. }
      exists dst. split_and!; [done..|].
      destruct (taken (candidate stem ext k)) eqn:Hk.
      * destruct Hwhich as (k' & Hk' & -> & Hbelow).
        exists k'. split_and!; [lia|done|].
        intros i Hi. destruct (decide (i = k)) as [->|]; [done|].
        apply Hbelow. lia.
      * subst dst. exists k. split_and!; [lia|done|]. intros i Hi. lia.
    + exists name. by rewrite Hname.
Qed.

End Resolve.

(** Among more candidates than the directory has entries, one is free. *)
Lemma free_candidate (fs : filesystem) (d : path) (stem ext : string)
    (k fuel : nat) :
  (size (entries fs) < fuel)%nat →
  ∃ j, (j < fuel)%nat ∧ exists_ fs (d ++ [candidate stem ext (k + j)]) = false.
Proof.
  intros Hfuel.
  set (P := λ j : nat, exists_ fs (d ++ [candidate stem ext (k + j)]) = false).
  destruct (decide (Exists P (seq 0 fuel))) as [Hex|Hno].
  - apply Exists_exists in Hex as (j & Hj & HP).
    apply elem_of_seq in Hj. exists j. split; [lia|done].
  - exfalso. apply not_Exists_Forall in Hno; [|intros ?; apply _].
    set (l := (λ j, d ++ [candidate stem ext (k + j)]) <$> seq 0 fuel).
    assert (NoDup l) as Hnd.
    { apply NoDup_fmap_2; [|apply NoDup_seq].
      intros j j' Heq. apply (f_equal last) in Heq.
      rewrite !last_snoc in Heq. apply (inj Some) in Heq.
      apply candidate_inj in Heq. lia. }
    assert (list_to_set l ⊆ entries fs) as Hsub.
    { intros p Hp. apply elem_of_list_to_set in Hp.
      apply list_elem_of_fmap in Hp as (j & -> & Hj).
      rewrite Forall_forall in Hno. specialize (Hno j Hj).
      unfold P, exists_, isfile, isdir in Hno. simpl in Hno.
      apply not_false_iff_true in Hno.
      unfold entries. rewrite elem_of_union, elem_of_dom.
      apply orb_true_iff in Hno as [Hf|Hd];
        [left; by apply bool_decide_eq_true in Hf
        |right; by apply bool_decide_eq_true in Hd]. }
    apply subseteq_size in Hsub.
    rewrite size_list_to_set in Hsub by done.
    unfold l in Hsub. rewrite length_fmap, length_seq in Hsub. lia.
Qed.

Lemma resolve_total (fs : filesystem) (d : path) (img_name : string) :
  let taken := λ n, exists_ fs (d ++ [n]) in
  ∃ dst, resolve taken (S (size (entries fs))) img_name = Some dst
    ∧ taken dst = false
    ∧ if taken ("new_" +:+ img_name) then
        ∃ k, (1 ≤ k)%nat
          ∧ dst = candidate (Py.splitext img_name).1 (Py.splitext img_name).2 k
          ∧ ∀ i, (1 ≤ i < k)%nat →
              taken (candidate (Py.splitext img_name).1
                       (Py.splitext img_name).2 i) = true
      else dst = "new_" +:+ img_name.
Proof.
  intros taken. unfold resolve.
  destruct (Py.splitext img_name) as [stem ext]. cbn [fst snd].
  apply (resolve_loop_spec taken stem ext (S _) 1). intros _.
  apply free_candidate. lia.
Qed.

Lemma plan_image_unfold (tbl : gmap Z Z) (nmerged : nat) (subset : string)
    (st : plan_state) (img_name : string) (w : world) :
  plan_image tbl nmerged subset st img_name w =
  let src_lbl :=
    new_labels_dir subset ++ [(Py.splitext img_name).1 +:+ ".txt"] in
  match resolve (λ n, exists_ (w_fs w) (main_images_dir subset ++ [n]))
          (S (size (entries (w_fs w)))) img_name with
  | None => (OutOfFuel, w)
  | Some dst =>
      if exists_ (w_fs w) src_lbl then
        match files (w_fs w) !! src_lbl with
        | None => (Raised OSError, w)
        | Some content =>
            (Done (st.1 ++ [planned_op subset img_name dst true],
                   bump (subset +:+ "_labels")
                     (bump (subset +:+ "_images") st.2)),
             World (w_fs w)
               (w_out w
                ++ (plan_remap tbl nmerged src_lbl
                      (stripped_lines content)).2))
        end
      else
        (Done (st.1 ++ [planned_op subset img_name dst false],
               bump (subset +:+ "_images") st.2), w)
  end.
Proof.
  cbv zeta.
  cbv beta iota delta [plan_image mbind M_bind bind get_fs ret out_of_fuel].
  destruct (resolve _ _ _) as [dst|]; [|done].
  cbv beta iota. unfold planned_op.
  destruct (exists_ _ (new_labels_dir subset ++ _)); [|done].
  cbv beta iota delta [read_text mbind M_bind bind get_fs or_raise ret raise].
  destruct (files (w_fs w) !! _) as [content|]; [|done].
  cbv beta iota.
  destruct (plan_remap _ _ _ _) as [remapped warns].
  cbv beta iota. by rewrite forM_print.
Qed.


(** ** What a run changes on the filesystem *)

Lemma reads_only_plan_image (tbl : gmap Z Z) (nmerged : nat)
    (subset : string) (st : plan_state) (img_name : string) :
  reads_only (plan_image tbl nmerged subset st img_name).
Proof.
  intros w. rewrite plan_image_unfold. cbv zeta.
  by repeat case_match; cbn [snd w_fs].
Qed.

Lemma reads_only_report_op (o : op) : reads_only (report_op o).
Proof.
  apply reads_only_bind; [apply reads_only_print|]. intros _.
  destruct (src_lbl o), (dst_lbl o); apply reads_only_print.
Qed.

Lemma reads_only_report (merged_names : list string) (st : plan_state) :
  reads_only (report merged_names st).
Proof.
  unfold report, forM.
  repeat (apply reads_only_bind; [|intros ?]);
    try apply reads_only_print; apply reads_only_foldM; intros ??;
    [apply reads_only_report_op | apply reads_only_print].
Qed.

Lemma grows_refl (fs0 : filesystem) : grows fs0 fs0.
Proof. split_and!; [done..|]. intros d Hd. by left. Qed.

Lemma ensure_dir_grows (fs0 : filesystem) (d : path) :
  (∀ a, a ∈ ancestors d → planned_dir fs0 a) →
  keeps (grows fs0) (ensure_dir d).
Proof.
  intros Hd w (Hfiles & Hsub & Hnew).
  unfold ensure_dir, mbind, M_bind, bind, get_fs, fs_op, makedirs. simpl.
  destruct (isdir (w_fs w) d); simpl; [done|].
  destruct (existsb _ _); simpl; [done|].
  split_and!; [done|set_solver|].
  intros a Ha. apply elem_of_union in Ha as [Ha|Ha]; [by apply Hnew|].
  right. apply Hd. by apply elem_of_list_to_set in Ha.
Qed.

(** Planning creates no directory under [new/]: a split found in the
    incoming dataset during planning was there when the run started. *)
Lemma isdir_new_stable (fs0 fs : filesystem) (subset : string) :
  grows fs0 fs →
  isdir fs (new_images_dir subset) = true →
  isdir fs0 (new_images_dir subset) = true.
Proof.
  intros (_ & _ & Hnew) Hdir. apply bool_decide_eq_true in Hdir.
  destruct (Hnew _ Hdir) as [?|(s & _ & _ & Hs)];
    [by apply bool_decide_eq_true|].
  exfalso. unfold ancestors, new_images_dir in Hs. simpl in Hs.
  rewrite !elem_of_cons, !elem_of_nil in Hs. naive_solver.
Qed.

Lemma plan_subset_grows (fs0 : filesystem) (tbl : gmap Z Z) (nmerged : nat)
    (st : plan_state) (subset : string) :
  subset ∈ subsets →
  keeps (grows fs0) (plan_subset tbl nmerged st subset).
Proof.
  intros Hsubset. unfold plan_subset. apply keeps_get_fs.
  intros w Hgrows.
  destruct (isdir (w_fs w) (new_images_dir subset)) eqn:Hdir; simpl; [|done].
  apply (isdir_new_stable fs0) in Hdir; [|done].
  assert (keeps (grows fs0)
    (ensure_dir (main_images_dir subset);;
     ensure_dir (main_labels_dir subset);;
     fs ← get_fs;
     foldM (plan_image tbl nmerged subset) st
       (list_files fs (new_images_dir subset)))) as Hkeeps; [|by apply Hkeeps].
  apply keeps_bind; [|intros _; apply keeps_bind; [|intros _]].
  - apply ensure_dir_grows. intros a Ha. exists subset. by auto.
  - apply ensure_dir_grows. intros a Ha. exists subset. by auto.
  - apply reads_only_keeps, reads_only_bind; [apply reads_only_get_fs|].
    intros fs. apply reads_only_foldM. intros ??. apply reads_only_plan_image.
Qed.

Lemma planning_grows (yaml : option yaml_module) (fs0 : filesystem) :
  keeps (grows fs0) (planning yaml).
Proof.
  unfold planning.
  apply keeps_bind; [apply reads_only_keeps, reads_only_load_yaml|].
  intros main_cfg. apply keeps_bind; [apply reads_only_keeps, reads_only_get_fs|].
  intros fs. apply keeps_bind.
  { apply reads_only_keeps. destruct (isfile fs new_data_yaml);
      [apply reads_only_load_yaml|apply reads_only_ret]. }
  intros new_cfg.
  do 2 (apply keeps_bind; [apply reads_only_keeps, reads_only_or_raise|];
        intros ?).
  do 3 (apply keeps_bind; [apply reads_only_keeps, reads_only_print|];
        intros _).
  apply keeps_bind; [apply reads_only_keeps, reads_only_or_raise|].
  intros tbl. apply keeps_bind; [|intros st; apply reads_only_keeps, reads_only_ret].
  apply keeps_foldM. intros acc subset Hsubset. by apply plan_subset_grows.
Qed.

Lemma main_dry_run_grows (yaml : option yaml_module)
    (format_value : value → string) (fs0 : filesystem) :
  keeps (grows fs0) (main yaml format_value true).
Proof.
  unfold main. apply keeps_get_fs. intros w Hgrows.
  destruct (isfile (w_fs w) main_data_yaml); simpl; [|done].
  destruct (isdir (w_fs w) ["new"]); simpl; [|done].
  revert w Hgrows. apply keeps_bind; [apply planning_grows|].
  intros [[[main_cfg merged_names] tbl] st].
  apply reads_only_keeps, reads_only_bind; [apply reads_only_report|].
  intros _. apply reads_only_bind; [apply reads_only_print|].
  intros _. apply reads_only_ret.
Qed.

(** [C1], amended.  A dry run changes no file, whatever the dataset: the
    files and their contents after the run are those before it.  Directories
    are only added, and every added directory is the destination images or
    labels directory, or a parent of it, of a split that the incoming dataset
    holds (planning calls [ensure_dir] on them). *)
Theorem dry_run_frame (yaml : option yaml_module)
    (format_value : value → string) (w : world) :
  let fs := w_fs w in
  let fs' := w_fs (main yaml format_value true w).2 in
  files fs' = files fs
  ∧ dirs fs ⊆ dirs fs'
  ∧ ∀ d, d ∈ dirs fs' → d ∉ dirs fs →
      ∃ subset, subset ∈ subsets
        ∧ isdir fs (new_images_dir subset) = true
        ∧ (d ∈ ancestors (main_images_dir subset)
           ∨ d ∈ ancestors (main_labels_dir subset)).
Proof.
  cbv zeta.
  destruct (main_dry_run_grows yaml format_value (w_fs w) w (grows_refl _))
    as (Hfiles & Hsub & Hnew).
  split_and!; [done..|].
  intros d Hd Hfresh. by destruct (Hnew d Hd).
Qed.

(** [C1] as stated fails: a dry run on [fs_new_split] ends normally and has
    created the directories valid/images and valid/labels. *)
Lemma dry_run_creates_directories :
  let w := World fs_new_split [] in
  let w' := (main None (λ _, EmptyString) true w).2 in
  (main None (λ _, EmptyString) true w).1 = Done 0
  ∧ isdir (w_fs w) ["valid"; "labels"] = false
  ∧ isdir (w_fs w') ["valid"; "labels"] = true
  ∧ w_fs w' ≠ w_fs w.
Proof.
  cbv zeta.
  assert (isdir (w_fs (World fs_new_split [])) ["valid"; "labels"] = false)
    as H0 by (vm_compute; reflexivity).
  assert (isdir (w_fs (main None (λ _, EmptyString) true
                         (World fs_new_split [])).2)
            ["valid"; "labels"] = true) as H1 by (vm_compute; reflexivity).
  split_and!; [vm_compute; reflexivity|done..|].
  intros Heq. rewrite Heq in H1. congruence.
Qed.

(** ** The destinations of one run *)

(** [C5] Two operations of one plan share a destination: [a.jpg] is moved
    from the occupied [new_a.jpg] to [new_a_1.jpg], which is also where
    [a_1.jpg] goes, since the resolver only looks at the files on disk.
    Applying the plan leaves a single file there; one image is lost. *)
Lemma planned_destinations_collide :
  let w := World fs_suffix_clash [] in
  planned_destinations None w
  = Some [["train"; "images"; "new_a_1.jpg"];
          ["train"; "images"; "new_a_1.jpg"]]
  ∧ (main None no_format false w).1 = Done 0
  ∧ size (filter (λ kv, kv.2 = "image a" ∨ kv.2 = "image a_1")
            (filter (λ kv, take 2 kv.1 = ["train"; "images"])
               (files (w_fs (main None no_format false w).2)))) = 1%nat.
Proof. cbv zeta. split_and!; vm_compute; reflexivity. Qed.

Lemma grows_exists (fs0 fs : filesystem) (p : path) :
  grows fs0 fs → exists_ fs p = false → exists_ fs0 p = false.
Proof.
  intros (Hfiles & Hsub & _). unfold exists_, isfile, isdir.
  rewrite Hfiles. intros [Hf Hd]%orb_false_iff. rewrite Hf. simpl.
  apply bool_decide_eq_false. apply bool_decide_eq_false in Hd. set_solver.
Qed.

Lemma plan_image_fresh (fs0 : filesystem) (tbl : gmap Z Z) (nmerged : nat)
    (subset : string) (st : plan_state) (img_name : string) :
  fresh_on fs0 st →
  yields (grows fs0) (plan_image tbl nmerged subset st img_name)
    (fresh_on fs0).
Proof.
  intros Hst w st' w' Hgrows Hrun.
  split.
  { pose proof (reads_only_plan_image tbl nmerged subset st img_name w) as Hfs.
    rewrite Hrun in Hfs. simpl in Hfs. by rewrite Hfs. }
  destruct (resolve_total (w_fs w) (main_images_dir subset) img_name)
    as (dst & Hres & Hfree & _).
  rewrite plan_image_unfold in Hrun. cbv zeta in Hrun. rewrite Hres in Hrun.
  apply (grows_exists fs0) in Hfree; [|done].
  unfold fresh_on in *.
  repeat case_match; simplify_eq; cbn [fst];
    (apply Forall_app; split; [done|by repeat constructor]).
Qed.

Lemma ensure_dir_Done (fs0 : filesystem) (d : path) (w w' : world) (u : ()) :
  (∀ a, a ∈ ancestors d → planned_dir fs0 a) →
  grows fs0 (w_fs w) → ensure_dir d w = (Done u, w') → grows fs0 (w_fs w').
Proof.
  intros Hd Hgrows Hrun.
  pose proof (ensure_dir_grows fs0 d Hd w Hgrows) as Hkeep.
  by rewrite Hrun in Hkeep.
Qed.

Lemma plan_subset_fresh (fs0 : filesystem) (tbl : gmap Z Z) (nmerged : nat)
    (st : plan_state) (subset : string) :
  subset ∈ subsets → fresh_on fs0 st →
  yields (grows fs0) (plan_subset tbl nmerged st subset) (fresh_on fs0).
Proof.
  intros Hsubset Hst w st' w' Hgrows Hrun.
  split.
  { pose proof (plan_subset_grows fs0 tbl nmerged st subset Hsubset w Hgrows)
      as Hkeep. by rewrite Hrun in Hkeep. }
  unfold plan_subset in Hrun.
  apply bind_Done in Hrun as (fs & w1 & [= <- <-] & Hrun).
  destruct (isdir (w_fs w) (new_images_dir subset)) eqn:Hdir; simpl in Hrun;
    [|by injection Hrun as <- _].
  apply (isdir_new_stable fs0) in Hdir; [|done].
  apply bind_Done in Hrun as (? & w2 & Himages & Hrun).
  apply bind_Done in Hrun as (? & w3 & Hlabels & Hrun).
  apply bind_Done in Hrun as (fs & w4 & [= <- <-] & Hrun).
  apply (ensure_dir_Done fs0) in Himages;
    [|intros a Ha; exists subset; by auto|done].
  apply (ensure_dir_Done fs0) in Hlabels;
    [|intros a Ha; exists subset; by auto|done].
  refine (proj2 (yields_foldM (grows fs0) _ (fresh_on fs0) _ st _ Hst
                   w3 st' w' Hlabels Hrun)).
  intros acc img_name _ Hacc. by apply plan_image_fresh.
Qed.

(** No destination that planning chooses is an entry of the filesystem the
    run started on. *)
Lemma planned_destinations_fresh (yaml : option yaml_module) (w w' : world)
    (main_cfg : cfg) (merged_names : list string) (tbl : gmap Z Z)
    (st : plan_state) :
  planning yaml w = (Done (main_cfg, merged_names, tbl, st), w') →
  Forall (λ o, exists_ (w_fs w) (dst_img o) = false) st.1.
Proof.
  intros Hrun. unfold planning in Hrun.
  apply bind_Done in Hrun as (? & w1 & Hload & Hrun).
  pose proof (load_yaml_world yaml main_data_yaml w) as Hw1.
  rewrite Hload in Hw1. simpl in Hw1. subst w1.
  apply bind_Done in Hrun as (fs & w2 & [= <- <-] & Hrun).
  apply bind_Done in Hrun as (new_cfg & w3 & Hnew & Hrun).
  assert (w_fs w3 = w_fs w) as Hw3.
  { destruct (isfile (w_fs w) new_data_yaml).
    - pose proof (load_yaml_world yaml new_data_yaml w) as Hw.
      rewrite Hnew in Hw. simpl in Hw. by subst w3.
    - by injection Hnew as _ <-. }
  apply bind_Done in Hrun as (main_names & w4 & Hmain & Hrun).
  apply bind_Done in Hrun as (new_names & w5 & Hnames & Hrun).
  do 3 apply bind_Done in Hrun as (? & ? & [= <- <-] & Hrun).
  apply bind_Done in Hrun as (tbl' & w9 & Htbl & Hrun).
  apply bind_Done in Hrun as (st' & w10 & Hfold & Hrun).
  injection Hrun as <- <- <- <- <-.
  assert (w_fs w9 = w_fs w) as Hw9.
  { destruct (names_of _); [|done]. injection Hmain as _ <-.
    destruct (names_of new_cfg); [|done]. injection Hnames as _ <-.
    simpl in Htbl. destruct (new_to_merged _ _); [|done].
    by injection Htbl as _ <-. }
  refine (proj2 (yields_foldM (grows (w_fs w)) _ (fresh_on (w_fs w)) _
                   ([], []) _ _ w9 st' w10 _ Hfold)).
  - intros acc subset Hsubset Hacc. by apply plan_subset_fresh.
  - constructor.
  - rewrite Hw9. apply grows_refl.
Qed.

(** ** An absent incoming descriptor *)

(** When [new/data.yaml] is not a file, planning goes on as with an empty
    incoming name list: the absence itself raises nothing, the merged
    taxonomy is the main one and the remap table is empty. *)
Lemma planning_absent_descriptor (yaml : option yaml_module) (w w' : world)
    (main_cfg : list (string * value)) (merged_names : list string)
    (tbl : gmap Z Z) (st : plan_state) :
  isfile (w_fs w) new_data_yaml = false →
  planning yaml w = (Done (main_cfg, merged_names, tbl, st), w') →
  names_of main_cfg = Some merged_names ∧ tbl = ∅.
Proof.
  intros Habsent Hrun. unfold planning in Hrun.
  apply bind_Done in Hrun as (main_cfg' & w1 & Hload & Hrun).
  pose proof (load_yaml_world yaml main_data_yaml w) as Hw1.
  rewrite Hload in Hw1. simpl in Hw1. subst w1.
  apply bind_Done in Hrun as (fs & w2 & [= <- <-] & Hrun).
  rewrite Habsent in Hrun.
  apply bind_Done in Hrun as (new_cfg & w3 & [= <- <-] & Hrun).
  apply bind_Done in Hrun as (main_names & w4 & Hmain & Hrun).
  apply bind_Done in Hrun as (new_names & w5 & [= <- <-] & Hrun).
  do 3 apply bind_Done in Hrun as (? & ? & _ & Hrun).
  apply bind_Done in Hrun as (tbl' & w9 & [= <- <-] & Hrun).
  apply bind_Done in Hrun as (st' & w10 & _ & Hrun).
  injection Hrun as <- <- <- <- <-.
  destruct (names_of main_cfg') as [names|]; [|done].
  injection Hmain as <- _. split; [|done].
  unfold merge_names. simpl. done.
Qed.

(** [C10] Without [new/data.yaml] an applying run writes class ids that no
    class of the merged taxonomy bears.  On [fs_no_descriptor] the run does
    not fail: the merged taxonomy is the main one, cat, and the remap table
    is empty.  Planning keeps the line of class id 0 only and warns that it
    cannot map the class ids 1 and 7; the apply loop still writes all three
    lines to the destination label file. *)
Lemma absent_descriptor_unmapped_ids_written :
  let src_lbl := ["new"; "valid"; "labels"; "a.txt"] in
  let run := main None no_format false (World fs_no_descriptor []) in
  isfile fs_no_descriptor new_data_yaml = false
  ∧ (∃ main_cfg st w',
       planning None (World fs_no_descriptor [])
       = (Done (main_cfg, ["cat"], ∅, st), w'))
  ∧ plan_remap ∅ 1 src_lbl (stripped_lines unmapped_label)
    = (["0 0.5 0.5 0.1 0.1"], [WarnMap 1 src_lbl; WarnMap 7 src_lbl])
  ∧ filter (λ m, is_true (match m with WarnMap _ _ => true | _ => false end))
      (w_out run.2)
    = [WarnMap 1 src_lbl; WarnMap 7 src_lbl]
  ∧ run.1 = Done 0
  ∧ files (w_fs run.2) !! ["valid"; "labels"; "new_a.txt"]
    = Some unmapped_label.
Proof.
  cbv zeta. split_and!; try (vm_compute; reflexivity).
  do 3 eexists. vm_compute. reflexivity.
Qed.

(** ** The descriptor written back *)

(** *** Names the one-line format can hold *)

Lemma strip_quoted (lead n : string) :
  lead = EmptyString ∨ lead = " " →
  plain_name n = true →
  Py.strip_by is_quote (Py.strip (lead +:+ quoted n)) = n.
Proof.
  intros Hlead Hplain. unfold plain_name in Hplain.
  apply andb_true_iff in Hplain as [[_ Hstart]%andb_true_iff Hend].
  apply String.eqb_eq in Hend.
  assert (Py.strip (lead +:+ quoted n) = quoted n) as ->.
  { unfold Py.strip, Py.strip_by.
    assert (Py.lstrip_by Py.isspace (lead +:+ quoted n) = quoted n) as ->
      by (by destruct Hlead as [->| ->]).
    unfold quoted. rewrite <- string_app_assoc. by apply rstrip_by_last. }
  unfold Py.strip_by, quoted. norm_app. simpl.
  destruct n as [|c n]; [done|]. norm_app.
  simpl in Hstart. apply negb_true_iff in Hstart.
  rewrite lstrip_by_head by done.
  change (String c (n +:+ "'")) with (String c n +:+ "'").
  by rewrite rstrip_by_drop_last.
Qed.

Lemma plain_name_no_comma (n : string) :
  plain_name n = true → all_chars (λ c, negb (is_comma c)) n = true.
Proof.
  unfold plain_name. intros [[Hall _]%andb_true_iff _]%andb_true_iff.
  revert Hall. apply all_chars_impl. unfold plain_char.
  by intros c [_ ?]%andb_true_iff.
Qed.

Lemma plain_name_no_eol (n : string) :
  plain_name n = true → all_chars (λ c, negb (eol c)) n = true.
Proof.
  unfold plain_name. intros [[Hall _]%andb_true_iff _]%andb_true_iff.
  revert Hall. apply all_chars_impl. unfold plain_char.
  by intros c [? _]%andb_true_iff.
Qed.

(** The items of the written list, split and unquoted as the fallback
    parser does, are the names. *)
Lemma unquote_items (names : list string) (n lead : string) :
  lead = EmptyString ∨ lead = " " →
  Forall (λ n, plain_name n = true) (n :: names) →
  unquote <$> split_comma (lead +:+ Py.join ", " (quoted <$> (n :: names)))
  = n :: names.
Proof.
  revert n lead. induction names as [|n' names IH]; intros n lead Hlead Hplain.
  - apply Forall_cons in Hplain as [Hn _]. simpl.
    rewrite split_comma_plain.
    + simpl. unfold unquote. by rewrite strip_quoted.
    + rewrite all_chars_app. apply andb_true_iff. split.
      * by destruct Hlead as [->| ->].
      * unfold quoted. rewrite !all_chars_app, (plain_name_no_comma n) by done.
        done.
  - apply Forall_cons in Hplain as [Hn Hplain].
    change (Py.join ", " (quoted <$> n :: n' :: names))
      with (quoted n +:+ ", " +:+ Py.join ", " (quoted <$> n' :: names)).
    change (", " +:+ Py.join ", " (quoted <$> n' :: names))
      with (String ","%char (" " +:+ Py.join ", " (quoted <$> n' :: names))).
    rewrite <- string_app_assoc. rewrite split_comma_app.
    + rewrite fmap_cons. f_equal.
      * unfold unquote. by rewrite strip_quoted.
      * apply IH; [by right|done].
    + rewrite all_chars_app. apply andb_true_iff. split.
      * by destruct Hlead as [->| ->].
      * unfold quoted. rewrite !all_chars_app, (plain_name_no_comma n) by done.
        done.
Qed.

Lemma join_quoted_ends (n : string) (names : list string) :
  ∃ body, Py.join ", " (quoted <$> (n :: names))
          = "'" +:+ body +:+ "'".
Proof.
  revert n. induction names as [|n' names IH]; intros n.
  - by exists n.
  - destruct (IH n') as [body Hbody].
    exists (n +:+ "', " +:+ "'" +:+ body).
    change (Py.join ", " (quoted <$> n :: n' :: names))
      with (quoted n +:+ ", " +:+ Py.join ", " (quoted <$> n' :: names)).
    rewrite Hbody. unfold quoted. by rewrite !string_app_assoc.
Qed.

Lemma join_quoted_no_eol (names : list string) :
  Forall (λ n, plain_name n = true) names →
  all_chars (λ c, negb (eol c)) (Py.join ", " (quoted <$> names)) = true.
Proof.
  induction names as [|n names IH]; intros Hplain; [done|].
  apply Forall_cons in Hplain as [Hn Hplain].
  destruct names as [|n' names].
  - simpl. unfold quoted. by rewrite !all_chars_app, (plain_name_no_eol n).
  - change (Py.join ", " (quoted <$> n :: n' :: names))
      with (quoted n +:+ ", " +:+ Py.join ", " (quoted <$> n' :: names)).
    unfold quoted at 1.
    rewrite !all_chars_app, (plain_name_no_eol n), IH by done. done.
Qed.

(** *** Dictionaries *)

Lemma dict_get_set (k k' : string) (v : value) (d : cfg) :
  dict_get k (dict_set k' v d)
  = if decide (k = k') then Some v else dict_get k d.
Proof.
  induction d as [|[k0 v0] d IH]; simpl.
  - by destruct (decide (k = k')).
  - destruct (decide (k' = k0)) as [->|Hne]; simpl.
    + by destruct (decide (k = k0)).
    + destruct (decide (k = k0)) as [->|]; [|done].
      by destruct (decide (k0 = k')).
Qed.

Lemma dict_set_others (k : string) (v : value) (d : cfg) :
  k = "nc" ∨ k = "names" →
  filter (λ kv, kv.1 ≠ "nc" ∧ kv.1 ≠ "names") (dict_set k v d)
  = filter (λ kv, kv.1 ≠ "nc" ∧ kv.1 ≠ "names") d.
Proof.
  intros Hk. induction d as [|[k0 v0] d IH]; cbn [dict_set].
  - rewrite filter_cons_False; [done|]. cbn [fst]. naive_solver.
  - destruct (decide (k = k0)) as [->|Hne].
    + rewrite !filter_cons_False; [done|cbn [fst]; naive_solver..].
    + rewrite !filter_cons. by rewrite IH.
Qed.

(** The fallback parser fills in [nc] and [names] and nothing else. *)
Lemma fallback_lines_keys (lines : list string) (d d' : cfg) (k : string) :
  k ≠ "nc" → k ≠ "names" →
  fallback_lines d lines = Some d' → dict_get k d' = dict_get k d.
Proof.
  intros Hnc Hnames. revert d.
  induction lines as [|line lines IH]; intros d; simpl.
  - by intros [= ->].
  - destruct (fallback_line d line) as [d1|] eqn:Hline; simpl; [|done].
    intros Hrest. rewrite (IH _ Hrest).
    unfold fallback_line in Hline.
    repeat case_match; simplify_option_eq;
      rewrite ?dict_get_set; by repeat case_decide.
Qed.

Lemma fallback_parse_keys (content : string) (d : cfg) (k : string) :
  k ≠ "nc" → k ≠ "names" →
  fallback_parse content = Some d → dict_get k d = None.
Proof.
  intros Hnc Hnames Hparse.
  by rewrite (fallback_lines_keys _ _ _ k Hnc Hnames Hparse).
Qed.

(** *** The simple writer, read back *)

(** Without [train], [val] and [test] entries the writer emits an empty line,
    the [nc] line and the [names] line. *)
Lemma fallback_text_lines (format_value : value → string) (main_cfg : cfg)
    (merged_names : list string) :
  dict_get "train" main_cfg = None →
  dict_get "val" main_cfg = None →
  dict_get "test" main_cfg = None →
  fallback_text format_value main_cfg merged_names
  = EmptyString +:+ nl +:+ nc_line merged_names +:+ nl
    +:+ names_line merged_names +:+ nl +:+ EmptyString.
Proof.
  intros Htrain Hval Htest. unfold fallback_text, nc_line, names_line.
  simpl. rewrite Htrain, Hval, Htest. simpl.
  by rewrite !string_app_assoc, string_app_empty_r.
Qed.

Lemma inner_brackets (body : string) : inner ("[" +:+ body +:+ "]") = body.
Proof.
  unfold inner. rewrite <- string_app_assoc, string_length_app.
  change (String.length "]") with 1%nat.
  replace (String.length ("[" +:+ body) + 1 - 1)%nat
    with (String.length ("[" +:+ body)) by lia.
  by rewrite take_app_length.
Qed.

Lemma nc_line_value (merged_names : list string) :
  Py.int (Py.strip (after_colon (nc_line merged_names)))
  = Some (Z.of_nat (length merged_names)).
Proof.
  destruct (digits_str (length merged_names)) as [_ Hall].
  change (after_colon (nc_line merged_names))
    with (String " " (Py.str (Z.of_nat (length merged_names)))).
  change (Py.strip (String " " (Py.str (Z.of_nat (length merged_names)))))
    with (Py.strip (Py.str (Z.of_nat (length merged_names)))).
  by rewrite strip_digits, int_str.
Qed.

Lemma fallback_line_nc (d : cfg) (merged_names : list string) :
  fallback_line d (nc_line merged_names)
  = Some (dict_set "nc" (VInt (Z.of_nat (length merged_names))) d).
Proof.
  unfold fallback_line.
  change (Py.startswith (nc_line merged_names) "nc:") with true.
  lazy beta iota. by rewrite nc_line_value.
Qed.

Lemma names_line_value (merged_names : list string) :
  Py.strip (after_colon (names_line merged_names))
  = "[" +:+ Py.join ", " (quoted <$> merged_names) +:+ "]".
Proof.
  change (after_colon (names_line merged_names))
    with (String " "
            ("[" +:+ Py.join ", " (quoted <$> merged_names) +:+ "]")).
  unfold Py.strip, Py.strip_by.
  change (Py.lstrip_by Py.isspace (String " " ?s)) with s.
  rewrite <- string_app_assoc. by apply rstrip_by_last.
Qed.

Lemma strip_join_quoted (n : string) (names : list string) :
  let body := Py.join ", " (quoted <$> (n :: names)) in
  Py.strip body = body ∧ Py.is_empty body = false.
Proof.
  cbv zeta. destruct (join_quoted_ends n names) as [inside ->].
  split; [|done]. unfold Py.strip, Py.strip_by. norm_app.
  rewrite lstrip_by_head by done.
  change (String "'" (inside +:+ "'")) with (("'" +:+ inside) +:+ "'").
  by apply rstrip_by_last.
Qed.

Lemma fallback_line_names (d : cfg) (merged_names : list string) :
  Forall (λ n, plain_name n = true) merged_names →
  fallback_line d (names_line merged_names)
  = Some (dict_set "names" (VList merged_names) d).
Proof.
  intros Hplain. unfold fallback_line.
  change (Py.startswith (names_line merged_names) "nc:") with false.
  change (Py.startswith (names_line merged_names) "names:") with true.
  lazy beta iota zeta. rewrite names_line_value.
  rewrite startswith_bracket.
  rewrite <- string_app_assoc, endswith_app, string_app_assoc.
  rewrite inner_brackets. lazy beta iota.
  destruct merged_names as [|n names]; [done|].
  destruct (strip_join_quoted n names) as [-> ->].
  do 3 f_equal. apply (unquote_items names n EmptyString); [by left|done].
Qed.

(** Reading back with the fallback parser what the simple writer wrote for a
    descriptor that the fallback parser had loaded. *)
Lemma fallback_round_trip (format_value : value → string)
    (content : string) (main_cfg : cfg) (merged_names : list string) :
  fallback_parse content = Some main_cfg →
  Forall (λ n, plain_name n = true) merged_names →
  fallback_parse (fallback_text format_value main_cfg merged_names)
  = Some [("nc", VInt (Z.of_nat (length merged_names)));
          ("names", VList merged_names)].
Proof.
  intros Hloaded Hplain.
  rewrite fallback_text_lines by (by eapply fallback_parse_keys).
  unfold fallback_parse.
  rewrite !text_lines_line.
  - assert (Py.strip (nc_line merged_names) = nc_line merged_names) as Hnc.
    { unfold nc_line, Py.strip, Py.strip_by. norm_app.
      rewrite lstrip_by_head by done.
      change (String "n" (String "c" (String ":" (String " " ?s))))
        with ("nc: " +:+ s).
      apply rstrip_by_app.
      - destruct (digits_str (length merged_names)) as [Hd _].
        by destruct (Py.str _).
      - apply rstrip_by_all. destruct (digits_str (length merged_names))
          as [_ Hall]. revert Hall. apply all_chars_impl.
        intros c Hc. by rewrite is_digit_not_space. }
    assert (Py.strip (names_line merged_names) = names_line merged_names)
      as Hnames.
    { unfold names_line, Py.strip, Py.strip_by. norm_app.
      rewrite lstrip_by_head by done.
      change (String "n" (String "a" (String "m" (String "e" (String "s"
                (String ":" (String " " (String "[" (?s +:+ "]")))))))))
        with (("names: [" +:+ s) +:+ "]").
      by apply rstrip_by_last. }
    change (text_lines EmptyString) with (@nil string).
    rewrite !fmap_cons, fmap_nil.
    change (Py.strip EmptyString) with EmptyString.
    rewrite Hnc, Hnames.
    rewrite filter_cons_False by (intros [? _]; done).
    rewrite !filter_cons_True, filter_nil by (split; [done|reflexivity]).
    cbn [fallback_lines]. rewrite fallback_line_nc. cbn [mbind option_bind].
    by rewrite fallback_line_names.
  - unfold names_line. rewrite !all_chars_app, join_quoted_no_eol by done.
    done.
  - unfold nc_line. rewrite all_chars_app.
    destruct (digits_str (length merged_names)) as [_ Hall].
    apply andb_true_iff. split; [done|].
    revert Hall. apply all_chars_impl. intros c Hc.
    unfold is_digit, Py.digit in Hc. apply bool_decide_eq_true in Hc as [d Hd].
    unfold eol.
    destruct (Ascii.eqb_spec c "010"%char) as [->|]; [done|].
    by destruct (Ascii.eqb_spec c "013"%char) as [->|].
  - done.
Qed.

(** *** The descriptor after an applying run *)

Lemma write_file_lookup (fs fs' : filesystem) (p : path) (text : string) :
  write_file fs p text = Some fs' → files fs' !! p = Some text.
Proof.
  unfold write_file. destruct (_ || _); [done|].
  intros [= <-]. simpl. apply lookup_insert_eq.
Qed.

(** A completed apply phase leaves [data.yaml] with the text the writer
    produced. *)
Lemma apply_changes_descriptor (yaml : option yaml_module)
    (format_value : value → string) (main_cfg : cfg)
    (merged_names : list string) (tbl : gmap Z Z) (planned_ops : list op)
    (w w' : world) (rc : Z) :
  apply_changes yaml format_value main_cfg merged_names tbl planned_ops w
  = (Done rc, w') →
  files (w_fs w') !! main_data_yaml
  = Some (descriptor_text yaml format_value main_cfg merged_names).
Proof.
  unfold apply_changes. intros Hrun.
  do 4 apply bind_Done in Hrun as (? & ? & _ & Hrun).
  apply bind_Done in Hrun as (u & w5 & Hwrite & Hrun).
  apply bind_Done in Hrun as (? & w6 & Hprint & Hrun).
  injection Hrun as _ <-. injection Hprint as _ <-. simpl.
  apply fs_op_Done in Hwrite. by apply write_file_lookup in Hwrite.
Qed.

(** [C9], amended.  After a completed apply phase [data.yaml] holds the text
    of the writer in use.  With the YAML library that text is the dump of the
    original mapping in which [nc] is the merged class count and [names] the
    merged name list, every other key keeping its value and its place.  The
    simple writer takes nothing from the original mapping but its [train],
    [val] and [test] entries; what it writes is read back by the fallback
    parser (which loaded the original, in that configuration) as [nc] the
    merged class count and [names] the merged name list, for names that the
    one-line format can hold. *)
Theorem descriptor_rewrite (format_value : value → string) (main_cfg : cfg)
    (merged_names : list string) :
  let cfg' := new_main_cfg main_cfg merged_names in
  (∀ yaml tbl planned_ops w w' rc,
     apply_changes yaml format_value main_cfg merged_names tbl planned_ops w
     = (Done rc, w') →
     files (w_fs w') !! main_data_yaml
     = Some (descriptor_text yaml format_value main_cfg merged_names))
  ∧ (∀ y, descriptor_text (Some y) format_value main_cfg merged_names
          = dump y cfg')
  ∧ dict_get "nc" cfg' = Some (VInt (Z.of_nat (length merged_names)))
  ∧ dict_get "names" cfg' = Some (VList merged_names)
  ∧ (∀ k, k ≠ "nc" → k ≠ "names" → dict_get k cfg' = dict_get k main_cfg)
  ∧ filter (λ kv, kv.1 ≠ "nc" ∧ kv.1 ≠ "names") cfg'
    = filter (λ kv, kv.1 ≠ "nc" ∧ kv.1 ≠ "names") main_cfg
  ∧ (∀ other_cfg,
       dict_get "train" other_cfg = dict_get "train" main_cfg →
       dict_get "val" other_cfg = dict_get "val" main_cfg →
       dict_get "test" other_cfg = dict_get "test" main_cfg →
       descriptor_text None format_value other_cfg merged_names
       = descriptor_text None format_value main_cfg merged_names)
  ∧ (∀ content,
       fallback_parse content = Some main_cfg →
       Forall (λ n, plain_name n = true) merged_names →
       fallback_parse
         (descriptor_text None format_value main_cfg merged_names)
       = Some [("nc", VInt (Z.of_nat (length merged_names)));
               ("names", VList merged_names)]).
Proof.
  cbv zeta. unfold new_main_cfg. split_and!.
  - intros yaml tbl planned_ops w w' rc. apply apply_changes_descriptor.
  - done.
  - rewrite !dict_get_set. by repeat case_decide.
  - rewrite !dict_get_set. by repeat case_decide.
  - intros k Hnc Hnames. rewrite !dict_get_set. by repeat case_decide.
  - rewrite !dict_set_others by auto. done.
  - intros other_cfg Htrain Hval Htest. unfold descriptor_text, fallback_text.
    simpl. by rewrite Htrain, Hval, Htest.
  - intros content Hloaded Hplain. by eapply fallback_round_trip.
Qed.

(** The theorem at a descriptor the fallback parser loads, with the merged
    taxonomy cat, dog. *)
Lemma descriptor_rewrite_witness :
  fallback_parse ("nc: 1" +:+ nl +:+ "names: ['cat']" +:+ nl)
  = Some [("nc", VInt 1); ("names", VList ["cat"])]
  ∧ Forall (λ n, plain_name n = true) ["cat"; "dog"]
  ∧ fallback_parse
      (descriptor_text None no_format
         [("nc", VInt 1); ("names", VList ["cat"])] ["cat"; "dog"])
    = Some [("nc", VInt 2); ("names", VList ["cat"; "dog"])].
Proof.
  assert (fallback_parse ("nc: 1" +:+ nl +:+ "names: ['cat']" +:+ nl)
          = Some [("nc", VInt 1); ("names", VList ["cat"])]) as Hloaded
    by reflexivity.
  assert (Forall (λ n, plain_name n = true) ["cat"; "dog"]) as Hplain
    by (repeat constructor).
  split_and!; [done..|].
  destruct (descriptor_rewrite no_format
              [("nc", VInt 1); ("names", VList ["cat"])] ["cat"; "dog"])
    as (_ & _ & _ & _ & _ & _ & _ & Hback).
  exact (Hback _ Hloaded Hplain).
Defined.

(** [C9] as stated fails on the fallback path: the applying run ends
    normally and the rewritten [data.yaml] has lost the [path] entry of the
    original. *)
Lemma fallback_writer_drops_keys :
  let w := World fs_with_path [] in
  let w' := (main None no_format false w).2 in
  (main None no_format false w).1 = Done 0
  ∧ "path: ../data"
      ∈ stripped_lines (default EmptyString (files (w_fs w) !! ["data.yaml"]))
  ∧ files (w_fs w') !! ["data.yaml"]
    = Some (nl +:+ "nc: 1" +:+ nl +:+ "names: ['cat']" +:+ nl)
  ∧ "path: ../data"
      ∉ stripped_lines (default EmptyString (files (w_fs w') !! ["data.yaml"])).
Proof.
  cbv zeta. split_and!; [vm_compute; reflexivity| |vm_compute; reflexivity|].
  - apply list_elem_of_In. vm_compute. tauto.
  - rewrite list_elem_of_In. vm_compute. intros [H|[H|H]]; [discriminate..|done].
Qed.
